(** * Stock analysis service: indicator engine, scorer and orchestrator

    A shallow embedding of [services/stock_analysis.py] (class
    [StockAnalysisService]) and of the [/analyze] endpoint that wraps it.

    Numbers.  The service computes on pandas [float64] columns.  They are
    modelled by [num]: an exact rational, one of the two infinities, or
    [NaN].  Arithmetic is exact on rationals and follows IEEE 754 on the
    special values (comparisons with [NaN] are false, [x / 0] is an
    infinity or [NaN], ...); rounding is not modelled and zero carries no
    sign.  A theorem below therefore gives the value of a column in exact
    arithmetic; where pandas guards a constant window against rounding
    (rolling means, the weighted average of equal values) the model
    follows the guard.

    Frames.  A [DataFrame] is the list of its rows, a [Series] the list of
    its values; all series of one frame share its index, so pandas'
    index-aligned arithmetic is position-wise. *)

From Stdlib Require Import String Ascii ZArith QArith Qcanon List Bool Lia.
From Stdlib Require Import Permutation Sorted Lqa.
Import ListNotations.

Set Implicit Arguments.

(* ================================================================== *)
(** ** float64 values *)
(* ================================================================== *)

Module Num.

Inductive num : Type :=
| NaN
| PInf
| NInf
| Fin (q : Qc).

Definition qz (z : Z) : Qc := Q2Qc (inject_Z z).
Definition qn (n : nat) : Qc := qz (Z.of_nat n).

Definition of_Z (z : Z) : num := Fin (qz z).

Definition isna (x : num) : bool :=
  match x with NaN => true | _ => false end.

(** [np.isinf]; pandas' rolling windows turn infinities into [NaN]. *)
Definition isinf (x : num) : bool :=
  match x with PInf | NInf => true | _ => false end.

Definition is_fin (x : num) : bool :=
  match x with Fin _ => true | _ => false end.

(** Sign of a rational: [Lt] negative, [Eq] zero, [Gt] positive. *)
Definition qsgn (q : Qc) : comparison := (q ?= Q2Qc 0)%Qc.

Definition fneg (x : num) : num :=
  match x with
  | NaN => NaN
  | PInf => NInf
  | NInf => PInf
  | Fin q => Fin (- q)%Qc
  end.

Definition fabs (x : num) : num :=
  match x with
  | NaN => NaN
  | PInf | NInf => PInf
  | Fin q => match qsgn q with Lt => Fin (- q)%Qc | _ => Fin q end
  end.

Definition fadd (x y : num) : num :=
  match x, y with
  | NaN, _ | _, NaN => NaN
  | PInf, NInf | NInf, PInf => NaN
  | PInf, _ | _, PInf => PInf
  | NInf, _ | _, NInf => NInf
  | Fin a, Fin b => Fin (a + b)%Qc
  end.

Definition fsub (x y : num) : num := fadd x (fneg y).

(** An infinity with the sign [s]; [Eq] stands for an invalid product. *)
Definition inf_of_sign (s : comparison) : num :=
  match s with Gt => PInf | Lt => NInf | Eq => NaN end.

Definition fmul (x y : num) : num :=
  match x, y with
  | NaN, _ | _, NaN => NaN
  | Fin a, Fin b => Fin (a * b)%Qc
  | PInf, PInf | NInf, NInf => PInf
  | PInf, NInf | NInf, PInf => NInf
  | PInf, Fin b | Fin b, PInf => inf_of_sign (qsgn b)
  | NInf, Fin b | Fin b, NInf => inf_of_sign (CompOpp (qsgn b))
  end.

(** Division never raises on float64: a zero divisor gives an infinity
    with the sign of the dividend, and [0 / 0] gives [NaN]. *)
Definition fdiv (x y : num) : num :=
  match x, y with
  | NaN, _ | _, NaN => NaN
  | Fin a, Fin b =>
      match qsgn b with
      | Eq => inf_of_sign (qsgn a)
      | _ => Fin (a / b)%Qc
      end
  | Fin _, (PInf | NInf) => Fin (Q2Qc 0)
  | (PInf | NInf), (PInf | NInf) => NaN
  | PInf, Fin b => match qsgn b with Lt => NInf | _ => PInf end
  | NInf, Fin b => match qsgn b with Lt => PInf | _ => NInf end
  end.

(** Ordering; [None] when either side is [NaN]. *)
Definition fcmp (x y : num) : option comparison :=
  match x, y with
  | NaN, _ | _, NaN => None
  | PInf, PInf | NInf, NInf => Some Eq
  | PInf, _ | _, NInf => Some Gt
  | NInf, _ | _, PInf => Some Lt
  | Fin a, Fin b => Some (a ?= b)%Qc
  end.

Definition flt (x y : num) : bool :=
  match fcmp x y with Some Lt => true | _ => false end.
Definition fle (x y : num) : bool :=
  match fcmp x y with Some Lt | Some Eq => true | _ => false end.
Definition fgt (x y : num) : bool := flt y x.
Definition fge (x y : num) : bool := fle y x.
Definition feqb (x y : num) : bool :=
  match fcmp x y with Some Eq => true | _ => false end.
(** Python's [!=]: true as soon as a [NaN] is involved. *)
Definition fneb (x y : num) : bool := negb (feqb x y).

(** Maximum that skips [NaN] ([max] with [skipna=True]). *)
Definition fmax_skipna (x y : num) : num :=
  match x, y with
  | NaN, _ => y
  | _, NaN => x
  | _, _ => if flt x y then y else x
  end.

Definition fsum (xs : list num) : num := fold_left fadd xs (Fin (Q2Qc 0)).

End Num.
Import Num.

Declare Scope num_scope.
Delimit Scope num_scope with num.
Infix "+" := fadd : num_scope.
Infix "-" := fsub : num_scope.
Infix "*" := fmul : num_scope.
Infix "/" := fdiv : num_scope.
Notation "- x" := (fneg x) : num_scope.
Infix "<?" := flt : num_scope.
Infix "<=?" := fle : num_scope.
Infix ">?" := fgt : num_scope.
Infix ">=?" := fge : num_scope.

(* ================================================================== *)
(** ** The pandas operations the service calls *)
(* ================================================================== *)

Module Pandas.

Definition Series := list num.

Definition at_ (s : Series) (i : nat) : num := nth i s NaN.

(** Position-wise binary operation on two series of one frame. *)
Fixpoint zip_with (f : num -> num -> num) (xs ys : Series) : Series :=
  match xs, ys with
  | x :: xs', y :: ys' => f x y :: zip_with f xs' ys'
  | _, _ => []
  end.

(** [series.shift(1)] *)
Definition shift1 (xs : Series) : Series :=
  match xs with
  | [] => []
  | _ => NaN :: removelast xs
  end.

(** [series.diff()] *)
Definition diff (xs : Series) : Series := zip_with fsub xs (shift1 xs).

(** [series.where(cond, other)] with the condition given per value. *)
Definition where_ (cond : num -> bool) (other : num) (xs : Series) : Series :=
  map (fun x => if cond x then x else other) xs.

(** The values a window ending at position [i] covers. *)
Definition window_at (window : nat) (xs : Series) (i : nat) : Series :=
  let start := (i + 1 - window)%nat in
  firstn (i + 1 - start) (skipn start xs).

(** [series.rolling(window=w).mean()]: [min_periods] defaults to the
    window size; infinities count as missing; a window with fewer than
    [min_periods] observations yields [NaN]. *)
Definition rolling_mean (window : nat) (xs : Series) : Series :=
  map (fun i =>
         let obs := filter is_fin (window_at window xs i) in
         if (window <=? length obs)%nat
         then (fsum obs / Fin (qn (length obs)))%num
         else NaN)
      (seq 0 (length xs)).

(** State of the exponentially weighted mean loop. *)
Record ewm_state := { weighted : num; old_wt : num }.

(** One iteration of the loop of [ewm(..., adjust=False).mean()]
    ([ignore_na=False]). *)
Definition ewm_step (alpha : num) (st : ewm_state) (cur : num) : ewm_state :=
  let old_wt_factor := (Fin (qz 1) - alpha)%num in
  let new_wt := alpha in
  if isna (weighted st) then
    if isna cur then st else {| weighted := cur; old_wt := old_wt st |}
  else
    let old_wt' := (old_wt st * old_wt_factor)%num in
    if isna cur then {| weighted := weighted st; old_wt := old_wt' |}
    else
      let w :=
        if fneb (weighted st) cur
        then ((old_wt' * weighted st + new_wt * cur) / (old_wt' + new_wt))%num
        else weighted st in
      {| weighted := w; old_wt := Fin (qz 1) |}.

Fixpoint ewm_loop (alpha : num) (st : ewm_state) (xs : Series) : Series :=
  match xs with
  | [] => []
  | cur :: rest =>
      let st' := ewm_step alpha st cur in
      weighted st' :: ewm_loop alpha st' rest
  end.

(** Before a window function runs, pandas replaces infinities by
    [NaN]. *)
Definition inf_to_nan (x : num) : num := if isinf x then NaN else x.

(** [series.ewm(span=span, adjust=False).mean()]: infinities count as
    missing, the smoothing factor is [2 / (span + 1)] and the first value
    seeds the mean. *)
Definition ewm_mean (span : nat) (xs : Series) : Series :=
  let alpha := (Fin (qz 2) / Fin (qn (span + 1)))%num in
  match map inf_to_nan xs with
  | [] => []
  | x0 :: rest =>
      x0 :: ewm_loop alpha {| weighted := x0; old_wt := Fin (qz 1) |} rest
  end.

(** [pd.concat([a, b, c], axis=1).max(axis=1)] *)
Fixpoint row_max3 (a b c : Series) : Series :=
  match a, b, c with
  | x :: a', y :: b', z :: c' =>
      fmax_skipna (fmax_skipna x y) z :: row_max3 a' b' c'
  | _, _, _ => []
  end.

(** [series.pct_change(periods=k)] *)
Definition pct_change (k : nat) (xs : Series) : Series :=
  map (fun i =>
         if (i <? k)%nat then NaN
         else (at_ xs i / at_ xs (i - k) - Fin (qz 1))%num)
      (seq 0 (length xs)).

End Pandas.
Import Pandas.

(* ================================================================== *)
(** ** Exceptions and the gateway monad *)
(* ================================================================== *)

(** The Python exceptions that can leave the service, by the classes the
    code tells apart.  An [except] clause matches by [isinstance], so
    [ValueError] stands for every instance of [ValueError], its
    subclasses included (a [JSONDecodeError], a date parsing error);
    [IndexError] likewise; [OtherError] is an exception that is an
    instance of neither, with the name of its class.  [ValueError] is
    what the service raises for a bad argument; the provider and pandas
    may raise anything. *)
Inductive exn : Type :=
| ValueError (msg : string)
| IndexError (msg : string)
| OtherError (kind msg : string).

Inductive result (A : Type) : Type :=
| Ok (a : A)
| Raise (e : exn).
Arguments Ok {A} a.
Arguments Raise {A} e.

Definition rbind {A B} (r : result A) (k : A -> result B) : result B :=
  match r with Ok a => k a | Raise e => Raise e end.

Fixpoint rmapM {A B} (f : A -> result B) (l : list A) : result (list B) :=
  match l with
  | [] => Ok []
  | a :: l' =>
      rbind (f a) (fun b => rbind (rmapM f l') (fun bs => Ok (b :: bs)))
  end.

(** A cell of the [date] column as [pd.to_datetime] sees it. *)
Inductive DateCell : Type :=
| DateVal (t : Z)          (* parses to the timestamp [t] *)
| DateNull                 (* None / NaN: becomes NaT *)
| DateBad (msg : string).  (* unparseable: pd.to_datetime raises *)

(** A cell of a price or volume column as [pd.to_numeric] sees it. *)
Inductive NumCell : Type :=
| NumVal (v : num)         (* a number, or text that parses to one *)
| NumBad.                  (* anything else: coerced to NaN *)

(** One row of the provider's frame, after the column renaming.  The six
    columns the service reads are taken to be present (a frame without
    one of them would stop the service with a [KeyError]).
    [raw_rest_na] tells whether some further column of the row is
    missing: [dropna] looks at every column. *)
Record RawRow := {
  raw_date : DateCell;
  raw_open : NumCell;
  raw_close : NumCell;
  raw_high : NumCell;
  raw_low : NumCell;
  raw_volume : NumCell;
  raw_rest_na : bool
}.

Definition RawFrame := list RawRow.

(** The calls into akshare. *)
Inductive call : Type :=
| stock_zh_a_hist (symbol start_date end_date adjust : string)
| stock_hk_daily (symbol adjust : string)
| stock_us_hist (symbol start_date end_date adjust : string)
| fund_etf_hist_em (symbol period start_date end_date adjust : string)
| fund_lof_hist_em (symbol period start_date end_date adjust : string).

(** What lies outside the service: the provider's answer to each call
    and the clock. *)
Record Env := {
  ak : call -> result RawFrame;
  now_ymd : string;            (* datetime.now().strftime('%Y%m%d') *)
  year_ago_ymd : string;       (* (now - 365 days).strftime('%Y%m%d') *)
  now_iso : string             (* datetime.now().strftime('%Y-%m-%d') *)
}.

(** Computations that may raise and that record the provider calls
    they make, oldest first. *)
Definition M (A : Type) : Type := Env -> list call -> result A * list call.

Definition ret {A} (a : A) : M A := fun _ tr => (Ok a, tr).
Definition raise {A} (e : exn) : M A := fun _ tr => (Raise e, tr).
Definition bind {A B} (m : M A) (k : A -> M B) : M B :=
  fun env tr =>
    match m env tr with
    | (Ok a, tr') => k a env tr'
    | (Raise e, tr') => (Raise e, tr')
    end.
Definition lift {A} (r : result A) : M A := fun _ tr => (r, tr).
Definition ask : M Env := fun env tr => (Ok env, tr).
Definition upstream (c : call) : M RawFrame :=
  fun env tr => (ak env c, tr ++ [c]).
Definition run {A} (m : M A) (env : Env) : result A * list call := m env [].

Declare Scope monad_scope.
Delimit Scope monad_scope with monad.
Notation "x <- m ;; k" := (bind m (fun x => k))
  (at level 61, m at next level, right associativity) : monad_scope.
Open Scope monad_scope.

(* ================================================================== *)
(** ** Data model *)
(* ================================================================== *)

Record StockDataRequest := {
  stock_code : string;
  market_type : string;
  start_date : option string;
  end_date : option string
}.

Record TechnicalIndicatorParams := {
  ma_short : nat;
  ma_medium : nat;
  ma_long : nat;
  rsi_period : nat;
  bollinger_period : nat;
  bollinger_std : nat;
  volume_ma_period : nat;
  atr_period : nat
}.

Definition default_params : TechnicalIndicatorParams := {|
  ma_short := 5; ma_medium := 20; ma_long := 60;
  rsi_period := 14;
  bollinger_period := 20; bollinger_std := 2;
  volume_ma_period := 20;
  atr_period := 14
|}.

Record StockAnalysisResult := {
  res_stock_code : string;
  res_market_type : string;
  analysis_date : string;
  score : num;
  price : num;
  price_change : num;
  ma_trend : string;
  rsi : option num;
  macd_signal : string;
  volume_status : string;
  recommendation : string
}.

(** A row of the normalised frame. *)
Record Bar := {
  date : Z;
  open : num;
  close : num;
  high : num;
  low : num;
  volume : num
}.

(** A row of the frame once [calculate_indicators] has added its columns.
    The three Bollinger columns are left out: they need a square root and
    no later step reads them. *)
Record Row := {
  bar : Bar;
  MA5 : num;
  MA20 : num;
  MA60 : num;
  RSI : num;
  MACD : num;
  Signal : num;
  MACD_hist : num;
  Volume_MA : num;
  Volume_Ratio : num;
  ATR : num;
  Volatility : num;
  ROC : num
}.

Record StockAnalysisService := { params : TechnicalIndicatorParams }.

(** [StockAnalysisService.__init__] *)
Definition init : StockAnalysisService := {| params := default_params |}.

(* ================================================================== *)
(** ** StockAnalysisService *)
(* ================================================================== *)

Definition out_of_bounds : string := "single positional indexer is out-of-bounds".

(** [df.iloc[k]]: a negative [k] counts from the end; a position outside
    the frame raises [IndexError]. *)
Definition iloc {A} (df : list A) (k : Z) : result A :=
  let n := Z.of_nat (List.length df) in
  let i := if (k <? 0)%Z then (n + k)%Z else k in
  if ((0 <=? i) && (i <? n))%Z then
    match nth_error df (Z.to_nat i) with
    | Some a => Ok a
    | None => Raise (IndexError out_of_bounds)
    end
  else Raise (IndexError out_of_bounds).

(** [request.start_date or default]: [None] and the empty string are
    both falsy. *)
Definition or_default (o : option string) (d : string) : string :=
  match o with
  | Some s => if String.eqb s "" then d else s
  | None => d
  end.

(** *** get_stock_data *)

(** The frame between the coercions and [dropna]. *)
Record CoercedRow := {
  c_date : option Z;           (* [None] is NaT *)
  c_open : num;
  c_close : num;
  c_high : num;
  c_low : num;
  c_volume : num;
  c_rest_na : bool
}.

(** [pd.to_datetime] on one cell (default [errors='raise']). *)
Definition to_datetime (c : DateCell) : result (option Z) :=
  match c with
  | DateVal t => Ok (Some t)
  | DateNull => Ok None
  | DateBad msg => Raise (ValueError msg)
  end.

(** [pd.to_numeric(..., errors='coerce')] on one cell. *)
Definition to_numeric (c : NumCell) : num :=
  match c with
  | NumVal v => v
  | NumBad => NaN
  end.

Definition coerce_row (r : RawRow) : result CoercedRow :=
  rbind (to_datetime (raw_date r)) (fun d =>
  Ok {| c_date := d;
        c_open := to_numeric (raw_open r);
        c_close := to_numeric (raw_close r);
        c_high := to_numeric (raw_high r);
        c_low := to_numeric (raw_low r);
        c_volume := to_numeric (raw_volume r);
        c_rest_na := raw_rest_na r |}).

(** What [dropna] keeps of a row: nothing as soon as one cell is NA. *)
Definition keep_row (r : CoercedRow) : option Bar :=
  match c_date r with
  | None => None
  | Some d =>
      if isna (c_open r) || isna (c_close r) || isna (c_high r)
         || isna (c_low r) || isna (c_volume r) || c_rest_na r
      then None
      else Some {| date := d; open := c_open r; close := c_close r;
                   high := c_high r; low := c_low r; volume := c_volume r |}
  end.

Fixpoint dropna (df : list CoercedRow) : list Bar :=
  match df with
  | [] => []
  | r :: df' =>
      match keep_row r with
      | Some b => b :: dropna df'
      | None => dropna df'
      end
  end.

Fixpoint insert_by_date (b : Bar) (l : list Bar) : list Bar :=
  match l with
  | [] => [b]
  | h :: t =>
      if (date b <=? date h)%Z then b :: h :: t else h :: insert_by_date b t
  end.

(** [df.sort_values('date')]: ascending.  pandas sorts with numpy's
    quicksort, which leaves the order of rows with equal dates open (it
    keeps them in source order on short frames, where it falls back to
    an insertion sort); this sort keeps them in source order.  The
    general theorems use that the result is an ascending permutation and
    nothing about equal dates. *)
Definition sort_values (df : list Bar) : list Bar :=
  fold_right insert_by_date [] df.

Definition valid_prefixes : list string := ["0"; "3"; "6"; "688"; "8"]%string.

(** [any(code.startswith(prefix) for prefix in valid_prefixes)] *)
Definition has_valid_prefix (code : string) : bool :=
  existsb (fun p => String.prefix p code) valid_prefixes.

Definition msg_invalid_code (code : string) : string :=
  ("无效的A股股票代码格式: " ++ code)%string.
Definition msg_unsupported_market (m : string) : string :=
  ("不支持的市场类型: " ++ m)%string.

Definition get_stock_data (self : StockAnalysisService)
    (request : StockDataRequest) : M (list Bar) :=
  env <- ask ;;
  let start_date := or_default (start_date request) (year_ago_ymd env) in
  let end_date := or_default (end_date request) (now_ymd env) in
  df <- (if String.eqb (market_type request) "A" then
           if negb (has_valid_prefix (stock_code request)) then
             raise (ValueError (msg_invalid_code (stock_code request)))
           else
             upstream (stock_zh_a_hist (stock_code request)
                         start_date end_date "qfq")
         else if String.eqb (market_type request) "HK" then
           upstream (stock_hk_daily (stock_code request) "qfq")
         else if String.eqb (market_type request) "US" then
           upstream (stock_us_hist (stock_code request)
                       start_date end_date "qfq")
         else if String.eqb (market_type request) "ETF" then
           upstream (fund_etf_hist_em (stock_code request) "daily"
                       start_date end_date "qfq")
         else if String.eqb (market_type request) "LOF" then
           upstream (fund_lof_hist_em (stock_code request) "daily"
                       start_date end_date "qfq")
         else
           raise (ValueError (msg_unsupported_market (market_type request)))) ;;
  df <- lift (rmapM coerce_row df) ;;
  ret (sort_values (dropna df)).

(** *** Indicators *)

Definition _calculate_ema (series : Series) (period : nat) : Series :=
  ewm_mean period series.

Definition _calculate_rsi (series : Series) (period : nat) : Series :=
  let delta := diff series in
  let gain :=
    rolling_mean period (where_ (fun d => d >? Fin (qz 0))%num (Fin (qz 0)) delta) in
  let loss :=
    rolling_mean period
      (map fneg (where_ (fun d => d <? Fin (qz 0))%num (Fin (qz 0)) delta)) in
  let rs := zip_with fdiv gain loss in
  map (fun r => Fin (qz 100) - (Fin (qz 100) / (Fin (qz 1) + r)))%num rs.

Definition _calculate_macd (series : Series) : Series * Series * Series :=
  let exp1 := ewm_mean 12 series in
  let exp2 := ewm_mean 26 series in
  let macd := zip_with fsub exp1 exp2 in
  let signal := ewm_mean 9 macd in
  let hist := zip_with fsub macd signal in
  (macd, signal, hist).

Definition true_range (df : list Bar) : Series :=
  let high_ := map high df in
  let low_ := map low df in
  let close_ := shift1 (map close df) in
  let tr1 := zip_with fsub high_ low_ in
  let tr2 := map fabs (zip_with fsub high_ close_) in
  let tr3 := map fabs (zip_with fsub low_ close_) in
  row_max3 tr1 tr2 tr3.

Definition _calculate_atr (df : list Bar) (period : nat) : Series :=
  rolling_mean period (true_range df).

Fixpoint enumerate {A} (i : nat) (l : list A) : list (nat * A) :=
  match l with
  | [] => []
  | a :: l' => (i, a) :: enumerate (S i) l'
  end.

Definition calculate_indicators (self : StockAnalysisService)
    (df : list Bar) : list Row :=
  let p := params self in
  let close_ := map close df in
  let volume_ := map volume df in
  let ma5 := _calculate_ema close_ (ma_short p) in
  let ma20 := _calculate_ema close_ (ma_medium p) in
  let ma60 := _calculate_ema close_ (ma_long p) in
  let rsi_ := _calculate_rsi close_ (rsi_period p) in
  let '(macd, signal, hist) := _calculate_macd close_ in
  let volume_ma := rolling_mean (volume_ma_period p) volume_ in
  let volume_ratio := zip_with fdiv volume_ volume_ma in
  let atr := _calculate_atr df (atr_period p) in
  let volatility :=
    map (fun x => x * Fin (qz 100))%num (zip_with fdiv atr close_) in
  let roc := map (fun x => x * Fin (qz 100))%num (pct_change 10 close_) in
  map (fun '(i, b) =>
         {| bar := b;
            MA5 := at_ ma5 i; MA20 := at_ ma20 i; MA60 := at_ ma60 i;
            RSI := at_ rsi_ i;
            MACD := at_ macd i; Signal := at_ signal i;
            MACD_hist := at_ hist i;
            Volume_MA := at_ volume_ma i;
            Volume_Ratio := at_ volume_ratio i;
            ATR := at_ atr i;
            Volatility := at_ volatility i;
            ROC := at_ roc i |})
      (enumerate 0 df).

(** *** Score and recommendation *)

Definition _calculate_score (df : list Row) : result Z :=
  let score := 0%Z in
  rbind (iloc df (-1)) (fun latest =>
  (* trend *)
  let score := if (MA5 latest >? MA20 latest)%num then (score + 15)%Z else score in
  let score := if (MA20 latest >? MA60 latest)%num then (score + 15)%Z else score in
  (* RSI *)
  let score :=
    if ((Fin (qz 30) <=? RSI latest) && (RSI latest <=? Fin (qz 70)))%num
    then (score + 20)%Z
    else if (RSI latest <? Fin (qz 30))%num then (score + 15)%Z
    else score in
  (* MACD *)
  let score := if (MACD latest >? Signal latest)%num then (score + 20)%Z else score in
  (* volume *)
  let score :=
    if (Volume_Ratio latest >? Fin (Q2Qc (3 # 2)))%num then (score + 30)%Z
    else if (Volume_Ratio latest >? Fin (qz 1))%num then (score + 15)%Z
    else score in
  Ok score).

Definition strongly_buy : string := "强烈推荐买入".
Definition buy : string := "建议买入".
Definition hold : string := "观望".
Definition sell : string := "建议卖出".
Definition strongly_sell : string := "强烈建议卖出".

Definition _get_recommendation (score : num) : string :=
  if (score >=? Fin (qz 80))%num then strongly_buy
  else if (score >=? Fin (qz 60))%num then buy
  else if (score >=? Fin (qz 40))%num then hold
  else if (score >=? Fin (qz 20))%num then sell
  else strongly_sell.

(** *** analyze_stock *)

(** The log lines, among them the dump of the first rows, do not change
    the outcome and are left out. *)
Definition analyze_stock (self : StockAnalysisService)
    (request : StockDataRequest) : M StockAnalysisResult :=
  stock_data <- get_stock_data self request ;;
  let stock_data := calculate_indicators self stock_data in
  score <- lift (_calculate_score stock_data) ;;
  latest <- lift (iloc stock_data (-1)) ;;
  prev <- lift (iloc stock_data (-2)) ;;
  env <- ask ;;
  ret {| res_stock_code := stock_code request;
         res_market_type := market_type request;
         analysis_date := now_iso env;
         score := of_Z score;
         price := close (bar latest);
         price_change :=
           ((close (bar latest) - close (bar prev)) / close (bar prev)
            * Fin (qz 100))%num;
         ma_trend := if (MA5 latest >? MA20 latest)%num then "UP" else "DOWN";
         rsi := if negb (isna (RSI latest)) then Some (RSI latest) else None;
         macd_signal :=
           if (MACD latest >? Signal latest)%num then "BUY" else "SELL";
         volume_status :=
           if (Volume_Ratio latest >? Fin (Q2Qc (3 # 2)))%num
           then "HIGH" else "NORMAL";
         recommendation := _get_recommendation (of_Z score) |}.

(* ================================================================== *)
(** ** The /analyze endpoint *)
(* ================================================================== *)

Module Endpoint.

Record Response := {
  success : bool;
  message : string;
  data : option StockAnalysisResult;
  status_code : nat
}.

(** [str(e)] *)
Definition str_exn (e : exn) : string :=
  match e with
  | ValueError msg | IndexError msg | OtherError _ msg => msg
  end.

Definition msg_not_json : string :=
  "Out of range float values are not JSON compliant".

(** [JSONResponse] renders its content with [allow_nan=False]: a report
    holding an infinity or a NaN makes it raise [ValueError]. *)
Definition json_compliant (r : StockAnalysisResult) : bool :=
  is_fin (score r) && is_fin (price r) && is_fin (price_change r)
  && match rsi r with Some x => is_fin x | None => true end.

(** [CustomResponse.success] *)
Definition custom_success (d : StockAnalysisResult) : result Response :=
  if json_compliant d then
    Ok {| success := true; message := "Success";
          data := Some d; status_code := 200 |}
  else Raise (ValueError msg_not_json).

(** [CustomResponse.error], without data and with the default status. *)
Definition custom_error (msg : string) : Response :=
  {| success := false; message := msg; data := None; status_code := 500 |}.

(** The handler of [POST /analyze]: a fresh service analyses the request
    and the report is wrapped; [ValueError] is reported as an argument
    error, every other exception as a failed analysis. *)
Definition analyze_stock (env : Env) (request : StockDataRequest) : Response :=
  match rbind (fst (run (analyze_stock init request) env)) custom_success with
  | Ok response => response
  | Raise (ValueError msg) => custom_error ("参数错误: " ++ msg)%string
  | Raise e => custom_error ("分析失败: " ++ str_exn e)%string
  end.

End Endpoint.

(* ================================================================== *)
(** ** The rubric and the normaliser as the specification words them *)
(* ================================================================== *)

(** The four buckets of the scoring rubric. *)
Definition trend_points (ma5 ma20 ma60 : num) : Z :=
  ((if (ma5 >? ma20)%num then 15 else 0)
   + (if (ma20 >? ma60)%num then 15 else 0))%Z.

Definition rsi_points (r : num) : Z :=
  if ((Fin (qz 30) <=? r) && (r <=? Fin (qz 70)))%num then 20%Z
  else if (r <? Fin (qz 30))%num then 15%Z
  else 0%Z.

Definition macd_points (macd signal : num) : Z :=
  if (macd >? signal)%num then 20%Z else 0%Z.

Definition volume_points (ratio : num) : Z :=
  if (ratio >? Fin (Q2Qc (3 # 2)))%num then 30%Z
  else if (ratio >? Fin (qz 1))%num then 15%Z
  else 0%Z.

Definition rubric (r : Row) : Z :=
  (trend_points (MA5 r) (MA20 r) (MA60 r)
   + rsi_points (RSI r)
   + macd_points (MACD r) (Signal r)
   + volume_points (Volume_Ratio r))%Z.

(** The argument checks and the choice of the provider call at the head
    of [get_stock_data], on their own. *)
Definition select_call (request : StockDataRequest) (env : Env) : result call :=
  let start_date := or_default (start_date request) (year_ago_ymd env) in
  let end_date := or_default (end_date request) (now_ymd env) in
  if String.eqb (market_type request) "A" then
    if negb (has_valid_prefix (stock_code request)) then
      Raise (ValueError (msg_invalid_code (stock_code request)))
    else Ok (stock_zh_a_hist (stock_code request) start_date end_date "qfq")
  else if String.eqb (market_type request) "HK" then
    Ok (stock_hk_daily (stock_code request) "qfq")
  else if String.eqb (market_type request) "US" then
    Ok (stock_us_hist (stock_code request) start_date end_date "qfq")
  else if String.eqb (market_type request) "ETF" then
    Ok (fund_etf_hist_em (stock_code request) "daily" start_date end_date "qfq")
  else if String.eqb (market_type request) "LOF" then
    Ok (fund_lof_hist_em (stock_code request) "daily" start_date end_date "qfq")
  else Raise (ValueError (msg_unsupported_market (market_type request))).

Definition mk_request (code m : string) (sd ed : option string)
  : StockDataRequest :=
  {| stock_code := code; market_type := m; start_date := sd; end_date := ed |}.

(** The symbol a provider call asks for. *)
Definition call_symbol (c : call) : string :=
  match c with
  | stock_zh_a_hist s _ _ _ | stock_hk_daily s _ | stock_us_hist s _ _ _
  | fund_etf_hist_em s _ _ _ _ | fund_lof_hist_em s _ _ _ _ => s
  end.

(** The pre-processing block of [get_stock_data] on its own. *)
Definition preprocess (raw : RawFrame) : result (list Bar) :=
  rbind (rmapM coerce_row raw) (fun df => Ok (sort_values (dropna df))).

(** *** True range and moving averages over rationals

    The specification's formulas, for series whose values are all
    finite. *)

Definition qmax (a b : Qc) : Qc :=
  match (a ?= b)%Qc with Lt => b | _ => a end.

Definition qabs (a : Qc) : Qc :=
  match (a ?= Q2Qc 0)%Qc with Lt => (- a)%Qc | _ => a end.

Definition qsum (l : list Qc) : Qc := fold_left Qcplus l (Q2Qc 0).

(** The rational a finite number stands for. *)
Definition qv (x : num) : Qc :=
  match x with Fin q => q | _ => Q2Qc 0 end.

Definition finite_bar (b : Bar) : bool :=
  is_fin (high b) && is_fin (low b) && is_fin (close b).

(** True range of a bar that has a previous close. *)
Definition spec_tr (prev_close h l : Qc) : Qc :=
  qmax (qmax (h - l) (qabs (h - prev_close))) (qabs (l - prev_close)).

Fixpoint spec_tr_from (prev_close : Qc) (df : list Bar) : list Qc :=
  match df with
  | [] => []
  | b :: rest =>
      spec_tr prev_close (qv (high b)) (qv (low b))
      :: spec_tr_from (qv (close b)) rest
  end.

(** True range per bar: high - low for the first bar, [spec_tr] against
    the previous bar's close afterwards. *)
Definition spec_true_range (df : list Bar) : list Qc :=
  match df with
  | [] => []
  | b :: rest =>
      (qv (high b) - qv (low b))%Qc :: spec_tr_from (qv (close b)) rest
  end.

(** Simple mean of the [period] values ending at position [t]. *)
Definition spec_rolling_mean (period : nat) (xs : list Qc) (t : nat) : Qc :=
  (qsum (firstn period (skipn (t + 1 - period) xs)) / qn period)%Qc.

(** Exponential moving average by its recurrence: seeded by the first
    value, then [y' = (1 - alpha) * y + alpha * x] with
    [alpha = 2 / (period + 1)]. *)
Fixpoint spec_ema_from (alpha y : Qc) (xs : list Qc) : list Qc :=
  match xs with
  | [] => []
  | x :: rest =>
      let y' := ((Q2Qc 1 - alpha) * y + alpha * x)%Qc in
      y' :: spec_ema_from alpha y' rest
  end.

Definition spec_ema (period : nat) (xs : list Qc) : list Qc :=
  match xs with
  | [] => []
  | x0 :: rest => x0 :: spec_ema_from (qz 2 / qn (period + 1))%Qc x0 rest
  end.

(** The true range of [_calculate_atr] read bar by bar, [pc] being the
    shifted close the bar is compared with. *)
Definition tr_with (pc : num) (b : Bar) : num :=
  fmax_skipna
    (fmax_skipna (high b - low b)%num (fabs (high b - pc)%num))
    (fabs (low b - pc)%num).

Fixpoint tr_tail (pc : num) (df : list Bar) : Series :=
  match df with
  | [] => []
  | b :: rest => tr_with pc b :: tr_tail (close b) rest
  end.

(* ================================================================== *)
(** ** Sample data *)
(* ================================================================== *)

(** A provider row with close [c] on day [d], high and low one above and
    one below, and volume [v]. *)
Definition sample_row (d c v : Z) : RawRow :=
  {| raw_date := DateVal d;
     raw_open := NumVal (of_Z c); raw_close := NumVal (of_Z c);
     raw_high := NumVal (of_Z (c + 1)); raw_low := NumVal (of_Z (c - 1));
     raw_volume := NumVal (of_Z v); raw_rest_na := false |}.

(** The row [sample_row d c v] once normalised. *)
Definition sample_bar (d c v : Z) : Bar :=
  {| date := d; open := of_Z c; close := of_Z c;
     high := of_Z (c + 1); low := of_Z (c - 1); volume := of_Z v |}.

(** A world whose provider gives the same answer to every call. *)
Definition sample_env (answer : result RawFrame) : Env :=
  {| ak := fun _ => answer;
     now_ymd := "20250517"; year_ago_ymd := "20240517";
     now_iso := "2025-05-17" |}.

Definition sample_request : StockDataRequest :=
  mk_request "600519" "A" None None.

Definition sample_call : call :=
  stock_zh_a_hist "600519" "20240517" "20250517" "qfq".

(** [n] days of a flat market: close 10 every day, volume [v]. *)
Definition flat_frame (n : nat) (v : Z) : list Bar :=
  map (fun i => sample_bar (Z.of_nat i) 10 v) (seq 0 n).

(** An indicator row that only carries the values the scorer reads. *)
Definition sample_indicators (b : Bar) (ma5 ma20 ma60 rsi_ macd signal ratio : Z)
  : Row :=
  {| bar := b;
     MA5 := of_Z ma5; MA20 := of_Z ma20; MA60 := of_Z ma60;
     RSI := of_Z rsi_; MACD := of_Z macd; Signal := of_Z signal;
     MACD_hist := of_Z (macd - signal);
     Volume_MA := NaN; Volume_Ratio := of_Z ratio;
     ATR := NaN; Volatility := NaN; ROC := NaN |}.


(** A provider row of day [d] whose prices are not numbers. *)
Definition sample_bad_row (d : Z) : RawRow :=
  {| raw_date := DateVal d;
     raw_open := NumBad; raw_close := NumBad;
     raw_high := NumBad; raw_low := NumBad;
     raw_volume := NumVal (of_Z 100); raw_rest_na := false |}.


(* ================================================================== *)
(** ** Further notions used to state properties of the service *)
(* ================================================================== *)

(** The market types [get_stock_data] has a branch for. *)
Definition supported_markets : list string :=
  ["A"; "HK"; "US"; "ETF"; "LOF"]%string.

(** A date argument that [or_default] replaces by the default. *)
Definition blank (d : option string) : Prop := d = None \/ d = Some ""%string.

Definition bad_date (r : RawRow) : bool :=
  match raw_date r with DateBad _ => true | _ => false end.

(** No cell of the bar is [NaN]. *)
Definition no_missing (b : Bar) : bool :=
  negb (isna (open b)) && negb (isna (close b)) && negb (isna (high b))
  && negb (isna (low b)) && negb (isna (volume b)).

(** The bar a provider row turns into when nothing in it is missing or
    unparseable. *)
Definition clean_bar (r : RawRow) : option Bar :=
  match coerce_row r with
  | Ok c => keep_row c
  | Raise _ => None
  end.

(** Position of a label on the scale from "strongly sell" to "strongly
    buy"; anything else sits at the bottom. *)
Definition label_rank (l : string) : nat :=
  if String.eqb l strongly_buy then 4
  else if String.eqb l buy then 3
  else if String.eqb l hold then 2
  else if String.eqb l sell then 1
  else 0.


(** *** RSI over rationals *)

(** Successive differences of a series that follows the value [prev]. *)
Fixpoint qdeltas_from (prev : Qc) (xs : list Qc) : list Qc :=
  match xs with
  | [] => []
  | x :: rest => (x - prev)%Qc :: qdeltas_from x rest
  end.

(** The gain of a price move: the move when it is upwards, else zero. *)
Definition qgain (d : Qc) : Qc :=
  match (Q2Qc 0 ?= d)%Qc with Lt => d | _ => Q2Qc 0 end.

(** The loss of a price move: its size when it is downwards, else zero. *)
Definition qloss (d : Qc) : Qc :=
  (- match (d ?= Q2Qc 0)%Qc with Lt => d | _ => Q2Qc 0 end)%Qc.

(** Gains and losses per bar; the first bar has no move. *)
Definition spec_gains (xs : list Qc) : list Qc :=
  match xs with
  | [] => []
  | x0 :: rest => Q2Qc 0 :: map qgain (qdeltas_from x0 rest)
  end.

Definition spec_losses (xs : list Qc) : list Qc :=
  match xs with
  | [] => []
  | x0 :: rest => (- Q2Qc 0)%Qc :: map qloss (qdeltas_from x0 rest)
  end.

(** The RSI at bar [i]: undefined during the warm-up and when the window
    has neither gain nor loss, 100 when it has gains only, and
    100 - 100 / (1 + gain / loss) on the window's averages otherwise. *)
Definition spec_rsi (period : nat) (xs : list Qc) (i : nat) : option Qc :=
  if ((period =? 0) || (i + 1 <? period))%nat then None
  else
    let g := spec_rolling_mean period (spec_gains xs) i in
    let l := spec_rolling_mean period (spec_losses xs) i in
    match (l ?= Q2Qc 0)%Qc with
    | Eq => match (g ?= Q2Qc 0)%Qc with
            | Gt => Some (qz 100)
            | _ => None
            end
    | _ => Some (qz 100 - qz 100 / (qz 1 + g / l))%Qc
    end.

Definition num_of_option (o : option Qc) : num :=
  match o with Some q => Fin q | None => NaN end.


(* ================================================================== *)
(** ** NewsCrawler *)
(* ================================================================== *)

(** [services/news_crawler.py].  Strings are UTF-8 byte strings; the two
    string operations used, a test for the ASCII substring "/news/" and a
    split at the ASCII character "/", give the same answer on bytes as on
    code points.  What [requests] and [BeautifulSoup] return is part of
    the world: the [href]s of the listing page and, per article page, the
    stripped text of the three elements looked up. *)

Module NewsCrawler.

(** [p in s] *)
Fixpoint contains (p s : string) : bool :=
  String.prefix p s
  || match s with
     | EmptyString => false
     | String _ s' => contains p s'
     end.

(** [s.split(sep)] for a one-character separator. *)
Fixpoint split (sep : ascii) (s : string) : list string :=
  match s with
  | EmptyString => [EmptyString]
  | String c s' =>
      if Ascii.eqb c sep then EmptyString :: split sep s'
      else match split sep s' with
           | h :: t => String c h :: t
           | [] => [String c EmptyString]
           end
  end.

(** [l[:limit]] *)
Definition slice_to {A} (l : list A) (limit : Z) : list A :=
  if (limit <? 0)%Z
  then firstn (Z.to_nat (Z.of_nat (List.length l) + limit)) l
  else firstn (Z.to_nat limit) l.

Record NewsArticle := {
  title : string;
  publication_date : string;
  content : string
}.

(** An article page as the three [select_one(...)] look-ups see it:
    the stripped text of the element, or [None] when it is absent. *)
Record Page := {
  h1 : option string;
  date_span : option string;
  post_content : option string
}.

Record World := {
  listing : result (list string);     (* hrefs of the listing page *)
  pages : string -> result Page       (* article page behind a URL *)
}.

Definition site : string := "https://www.aibase.com/zh".

Definition is_news_link (link : string) : bool :=
  contains "/news/" link && (2 <? List.length (split "/" link))%nat.

Definition get_news_urls (w : World) : result (list string) :=
  rbind (listing w) (fun hrefs =>
  Ok (map (fun link => (site ++ link)%string) (filter is_news_link hrefs))).

Definition text_or (o : option string) (dflt : string) : string :=
  match o with Some s => s | None => dflt end.

(** The three strings are gathered in a dictionary, dumped to JSON and
    loaded back, which changes nothing on string entries; [fetch_news]
    then copies them into a [NewsArticle].  Both steps carry the same
    three strings, kept here in one record. *)
Definition extract_article (w : World) (url : string) : result NewsArticle :=
  rbind (pages w url) (fun page =>
  Ok {| title := text_or (h1 page) "无标题";
        publication_date := text_or (date_span page) "未知日期";
        content := text_or (post_content page) "无法提取内容" |}).

Definition fetch_news (w : World) (limit : Z) : result (list NewsArticle) :=
  rbind (get_news_urls w) (fun news_urls =>
  let news_urls := slice_to news_urls limit in
  rmapM (extract_article w) news_urls).

End NewsCrawler.


(** Three days of rising closes with a steady volume, as the provider
    sends them and as they are once normalised. *)
Definition sample_rows3 : RawFrame :=
  [sample_row 1 10 100; sample_row 2 12 100; sample_row 3 15 100].

Definition sample_bars3 : list Bar :=
  [sample_bar 1 10 100; sample_bar 2 12 100; sample_bar 3 15 100].

(** A listing with two news links, of which only the first page loads. *)
Definition sample_world : NewsCrawler.World :=
  {| NewsCrawler.listing := Ok ["/news/1"; "/about"; "/zh/news/2"]%string;
     NewsCrawler.pages := fun u =>
       if String.eqb u "https://www.aibase.com/zh/news/1"
       then Ok {| NewsCrawler.h1 := Some "Title"%string;
                  NewsCrawler.date_span := None;
                  NewsCrawler.post_content := Some "Text"%string |}
       else Raise (OtherError "HTTPError" "404 Client Error") |}.


(** The start and end date a provider call asks for; [stock_hk_daily]
    takes none. *)
Definition call_start_date (c : call) : option string :=
  match c with
  | stock_zh_a_hist _ s _ _ | stock_us_hist _ s _ _
  | fund_etf_hist_em _ _ s _ _ | fund_lof_hist_em _ _ s _ _ => Some s
  | stock_hk_daily _ _ => None
  end.

Definition call_end_date (c : call) : option string :=
  match c with
  | stock_zh_a_hist _ _ e _ | stock_us_hist _ _ e _
  | fund_etf_hist_em _ _ _ e _ | fund_lof_hist_em _ _ _ e _ => Some e
  | stock_hk_daily _ _ => None
  end.


(* ================================================================== *)
(** ** Facts about numbers *)
(* ================================================================== *)

Section NumFacts.

Local Open Scope Qc_scope.

Lemma flt_Fin (a b : Qc) : flt (Fin a) (Fin b) = true <-> a < b.
Proof.
  unfold flt; simpl. rewrite Qclt_alt.
  destruct (a ?= b); split; congruence.
Qed.

Lemma fle_Fin (a b : Qc) : fle (Fin a) (Fin b) = true <-> a <= b.
Proof.
  unfold fle; simpl. rewrite Qcle_alt.
  destruct (a ?= b); split; congruence.
Qed.

Lemma flt_Fin_false (a b : Qc) : flt (Fin a) (Fin b) = false <-> b <= a.
Proof.
  split; intro H.
  - apply Qcnot_lt_le. intro L. apply flt_Fin in L. congruence.
  - destruct (flt (Fin a) (Fin b)) eqn:E; [|reflexivity].
    apply flt_Fin in E. exfalso. exact (Qcle_not_lt _ _ H E).
Qed.

Lemma fle_Fin_false (a b : Qc) : fle (Fin a) (Fin b) = false <-> b < a.
Proof.
  split; intro H.
  - apply Qcnot_le_lt. intro L. apply fle_Fin in L. congruence.
  - destruct (fle (Fin a) (Fin b)) eqn:E; [|reflexivity].
    apply fle_Fin in E. exfalso. exact (Qcle_not_lt _ _ E H).
Qed.

Lemma qcompare_refl (a : Qc) : (a ?= a) = Eq.
Proof. apply Qceq_alt. reflexivity. Qed.

Lemma feqb_refl_Fin (a : Qc) : feqb (Fin a) (Fin a) = true.
Proof. unfold feqb; simpl. now rewrite qcompare_refl. Qed.

Lemma qsgn_Eq (a : Qc) : qsgn a = Eq <-> a = Q2Qc 0.
Proof. unfold qsgn. symmetry. apply Qceq_alt. Qed.

Lemma qn_S (n : nat) : qn (S n) = qn n + Q2Qc 1.
Proof.
  unfold qn, qz. apply Qc_is_canon.
  unfold Qcplus, Q2Qc. cbn [this].
  rewrite !Qred_correct. rewrite Nat2Z.inj_succ. unfold Z.succ.
  rewrite inject_Z_plus. reflexivity.
Qed.

Lemma qn_pos (n : nat) : qn (S n) <> Q2Qc 0.
Proof.
  unfold qn, qz. intro H. apply Q2Qc_eq_iff in H.
  unfold Qeq in H. cbn [Qnum Qden inject_Z] in H. lia.
Qed.

End NumFacts.

(* ================================================================== *)
(** ** Positional access *)
(* ================================================================== *)

Section Iloc.

Context {A : Type}.

Lemma iloc_last (pre : list A) (x : A) : iloc (pre ++ [x]) (-1) = Ok x.
Proof.
  unfold iloc. rewrite length_app. cbn [List.length].
  replace (Z.of_nat (List.length pre + 1) + -1)%Z
    with (Z.of_nat (List.length pre)) by lia.
  cbn [Z.ltb Z.compare].
  replace ((0 <=? Z.of_nat (List.length pre))%Z) with true
    by (symmetry; apply Z.leb_le; lia).
  replace ((Z.of_nat (List.length pre) <? Z.of_nat (List.length pre + 1))%Z)
    with true by (symmetry; apply Z.ltb_lt; lia).
  cbn [andb]. rewrite Nat2Z.id.
  rewrite nth_error_app2 by lia. now rewrite Nat.sub_diag.
Qed.

Lemma iloc_last_but_one (pre : list A) (p x : A) :
  iloc (pre ++ [p; x]) (-2) = Ok p.
Proof.
  unfold iloc. rewrite length_app. cbn [List.length].
  replace (Z.of_nat (List.length pre + 2) + -2)%Z
    with (Z.of_nat (List.length pre)) by lia.
  cbn [Z.ltb Z.compare].
  replace ((0 <=? Z.of_nat (List.length pre))%Z) with true
    by (symmetry; apply Z.leb_le; lia).
  replace ((Z.of_nat (List.length pre) <? Z.of_nat (List.length pre + 2))%Z)
    with true by (symmetry; apply Z.ltb_lt; lia).
  cbn [andb]. rewrite Nat2Z.id.
  rewrite nth_error_app2 by lia. now rewrite Nat.sub_diag.
Qed.

(** A negative position further back than the frame is long raises. *)
Lemma iloc_short (df : list A) (k : nat) :
  (List.length df < k)%nat ->
  iloc df (- Z.of_nat k) = Raise (IndexError out_of_bounds).
Proof.
  intro H. unfold iloc.
  replace ((- Z.of_nat k <? 0)%Z) with true
    by (symmetry; apply Z.ltb_lt; lia).
  replace ((0 <=? Z.of_nat (List.length df) + - Z.of_nat k)%Z) with false
    by (symmetry; apply Z.leb_gt; lia).
  reflexivity.
Qed.

Lemma split_last (l : list A) :
  l <> [] -> exists pre x, l = pre ++ [x].
Proof.
  intro H. destruct (exists_last H) as (pre & x & E). eauto.
Qed.

Lemma split_last_two (l : list A) :
  (2 <= List.length l)%nat -> exists pre p x, l = pre ++ [p; x].
Proof.
  intro H.
  destruct (@split_last l) as (l1 & x & E1).
  { intro E; subst; simpl in H; lia. }
  subst l. rewrite length_app in H. simpl in H.
  destruct (@split_last l1) as (l2 & p & E2).
  { intro E; subst; simpl in H; lia. }
  subst l1. exists l2, p, x. now rewrite <- app_assoc.
Qed.

End Iloc.

(* ================================================================== *)
(** ** The scorer *)
(* ================================================================== *)

Lemma trend_points_range (a b c : num) :
  In (trend_points a b c) [0; 15; 30]%Z.
Proof.
  unfold trend_points.
  destruct (a >? b)%num, (b >? c)%num; simpl; auto.
Qed.

Lemma rsi_points_range (r : num) : In (rsi_points r) [0; 15; 20]%Z.
Proof.
  unfold rsi_points.
  destruct ((Fin (qz 30) <=? r) && (r <=? Fin (qz 70)))%num,
    (r <? Fin (qz 30))%num; simpl; auto.
Qed.

Lemma macd_points_range (m s : num) : In (macd_points m s) [0; 20]%Z.
Proof. unfold macd_points. destruct (m >? s)%num; simpl; auto. Qed.

Lemma volume_points_range (v : num) : In (volume_points v) [0; 15; 30]%Z.
Proof.
  unfold volume_points.
  destruct (v >? Fin (Q2Qc (3 # 2)))%num, (v >? Fin (qz 1))%num; simpl; auto.
Qed.

Lemma rubric_bounds (r : Row) : (0 <= rubric r <= 100)%Z.
Proof.
  unfold rubric.
  pose proof (trend_points_range (MA5 r) (MA20 r) (MA60 r)) as Ht.
  pose proof (rsi_points_range (RSI r)) as Hr.
  pose proof (macd_points_range (MACD r) (Signal r)) as Hm.
  pose proof (volume_points_range (Volume_Ratio r)) as Hv.
  simpl in Ht, Hr, Hm, Hv. lia.
Qed.

Lemma calculate_score_last (pre : list Row) (latest : Row) :
  _calculate_score (pre ++ [latest]) = Ok (rubric latest).
Proof.
  unfold _calculate_score. rewrite iloc_last. cbn [rbind].
  unfold rubric, trend_points, rsi_points, macd_points, volume_points.
  destruct (MA5 latest >? MA20 latest)%num,
    (MA20 latest >? MA60 latest)%num,
    ((Fin (qz 30) <=? RSI latest) && (RSI latest <=? Fin (qz 70)))%num,
    (RSI latest <? Fin (qz 30))%num,
    (MACD latest >? Signal latest)%num,
    (Volume_Ratio latest >? Fin (Q2Qc (3 # 2)))%num,
    (Volume_Ratio latest >? Fin (qz 1))%num; reflexivity.
Qed.

(** An empty frame has no last row: the positional read raises. *)
Lemma calculate_score_empty :
  _calculate_score [] = Raise (IndexError out_of_bounds).
Proof. reflexivity. Qed.

(** C1.  Whatever the rows before it, the score of a frame is the
    additive rubric read off its last row: 15 for MA5 > MA20, 15 for
    MA20 > MA60, 20 for an RSI in [30, 70] and otherwise 15 for an RSI
    below 30, 20 for MACD > Signal,
    30 for a volume ratio above 1.5 and otherwise 15 for one above 1.
    An undefined RSI adds nothing, and the score lies between 0 and
    100. *)
Theorem calculate_score_rubric (pre : list Row) (latest : Row) :
  _calculate_score (pre ++ [latest])
  = Ok (trend_points (MA5 latest) (MA20 latest) (MA60 latest)
        + rsi_points (RSI latest)
        + macd_points (MACD latest) (Signal latest)
        + volume_points (Volume_Ratio latest))%Z
  /\ (0 <= rubric latest <= 100)%Z
  /\ rsi_points NaN = 0%Z.
Proof.
  split; [apply calculate_score_last|].
  split; [apply rubric_bounds|reflexivity].
Qed.

(** C9.  Two frames whose last rows agree on the seven indicator values
    the rubric reads get the same score, whatever their earlier rows
    are. *)
Theorem score_depends_on_last_row_only
    (pre1 pre2 : list Row) (r1 r2 : Row) :
  MA5 r1 = MA5 r2 -> MA20 r1 = MA20 r2 -> MA60 r1 = MA60 r2 ->
  RSI r1 = RSI r2 ->
  MACD r1 = MACD r2 -> Signal r1 = Signal r2 ->
  Volume_Ratio r1 = Volume_Ratio r2 ->
  _calculate_score (pre1 ++ [r1]) = _calculate_score (pre2 ++ [r2]).
Proof.
  intros H5 H20 H60 Hr Hm Hs Hv.
  rewrite !calculate_score_last. unfold rubric.
  now rewrite H5, H20, H60, Hr, Hm, Hs, Hv.
Qed.

(** C10.  The score of a non-empty frame is a sum of one value per
    bucket, each among 0, 15, 20 and 30; it is therefore a multiple of 5,
    and a score below one of the boundaries 80, 60, 40, 20 is at least 5
    below it. *)
Theorem score_multiple_of_five (pre : list Row) (latest : Row) :
  exists t r m v : Z,
    _calculate_score (pre ++ [latest]) = Ok (t + r + m + v)%Z
    /\ In t [0; 15; 30]%Z /\ In r [0; 15; 20]%Z
    /\ In m [0; 20]%Z /\ In v [0; 15; 30]%Z
    /\ ((t + r + m + v) mod 5 = 0)%Z
    /\ Forall (fun b => (t + r + m + v < b -> t + r + m + v <= b - 5)%Z)
         [80; 60; 40; 20]%Z.
Proof.
  exists (trend_points (MA5 latest) (MA20 latest) (MA60 latest)),
    (rsi_points (RSI latest)),
    (macd_points (MACD latest) (Signal latest)),
    (volume_points (Volume_Ratio latest)).
  pose proof (trend_points_range (MA5 latest) (MA20 latest) (MA60 latest)) as Ht.
  pose proof (rsi_points_range (RSI latest)) as Hr.
  pose proof (macd_points_range (MACD latest) (Signal latest)) as Hm.
  pose proof (volume_points_range (Volume_Ratio latest)) as Hv.
  split; [apply calculate_score_last|].
  repeat (split; [assumption|]).
  simpl in Ht, Hr, Hm, Hv.
  assert (Hmod :
    ((trend_points (MA5 latest) (MA20 latest) (MA60 latest)
      + rsi_points (RSI latest) + macd_points (MACD latest) (Signal latest)
      + volume_points (Volume_Ratio latest)) mod 5 = 0)%Z).
  { destruct Ht as [<-|[<-|[<-|[]]]], Hr as [<-|[<-|[<-|[]]]],
      Hm as [<-|[<-|[]]], Hv as [<-|[<-|[<-|[]]]]; reflexivity. }
  split; [exact Hmod|].
  repeat constructor; intro L;
    apply Z.mod_divide in Hmod; try lia;
    destruct Hmod as [k Hk]; lia.
Qed.

(* ================================================================== *)
(** ** The recommendation mapper *)
(* ================================================================== *)

Section Recommendation.

Local Open Scope Qc_scope.

Lemma fge_Fin_true (s b : Qc) : b <= s -> (Fin s >=? Fin b)%num = true.
Proof. intro H. unfold fge. now apply fle_Fin. Qed.

Lemma fge_Fin_false (s b : Qc) : s < b -> (Fin s >=? Fin b)%num = false.
Proof. intro H. unfold fge. now apply fle_Fin_false. Qed.

Lemma labels_distinct :
  NoDup [strongly_buy; buy; hold; sell; strongly_sell].
Proof.
  repeat constructor; simpl; intuition discriminate.
Qed.

(** C2.  The label is decided by the score alone: at least 80 gives
    "strongly buy", [60, 80) "buy", [40, 60) "hold", [20, 40) "sell" and
    anything below 20 "strongly sell"; the five labels are pairwise
    different, and 80, 60, 40 and 20 themselves get the upper label. *)
Theorem recommendation_thresholds (s : Qc) :
  (qz 80 <= s -> _get_recommendation (Fin s) = strongly_buy)
  /\ (qz 60 <= s -> s < qz 80 -> _get_recommendation (Fin s) = buy)
  /\ (qz 40 <= s -> s < qz 60 -> _get_recommendation (Fin s) = hold)
  /\ (qz 20 <= s -> s < qz 40 -> _get_recommendation (Fin s) = sell)
  /\ (s < qz 20 -> _get_recommendation (Fin s) = strongly_sell)
  /\ NoDup [strongly_buy; buy; hold; sell; strongly_sell]
  /\ _get_recommendation (of_Z 80) = strongly_buy
  /\ _get_recommendation (of_Z 60) = buy
  /\ _get_recommendation (of_Z 40) = hold
  /\ _get_recommendation (of_Z 20) = sell.
Proof.
  assert (L1 : qz 20 < qz 40) by reflexivity.
  assert (L2 : qz 40 < qz 60) by reflexivity.
  assert (L3 : qz 60 < qz 80) by reflexivity.
  unfold _get_recommendation.
  repeat split.
  - intro H. now rewrite (fge_Fin_true H).
  - intros H1 H2. now rewrite (fge_Fin_false H2), (fge_Fin_true H1).
  - intros H1 H2.
    rewrite (fge_Fin_false (Qclt_trans _ _ _ H2 L3)).
    now rewrite (fge_Fin_false H2), (fge_Fin_true H1).
  - intros H1 H2.
    pose proof (Qclt_trans _ _ _ H2 L2) as H3.
    rewrite (fge_Fin_false (Qclt_trans _ _ _ H3 L3)).
    now rewrite (fge_Fin_false H3), (fge_Fin_false H2), (fge_Fin_true H1).
  - intro H1.
    pose proof (Qclt_trans _ _ _ H1 L1) as H2.
    pose proof (Qclt_trans _ _ _ H2 L2) as H3.
    rewrite (fge_Fin_false (Qclt_trans _ _ _ H3 L3)).
    now rewrite (fge_Fin_false H3), (fge_Fin_false H2), (fge_Fin_false H1).
  - apply labels_distinct.
Qed.

End Recommendation.

(* ================================================================== *)
(** ** The gateway: dispatch and code check *)
(* ================================================================== *)

Section Gateway.

Variable self : StockAnalysisService.
Variable env : Env.

Local Open Scope string_scope.

Lemma has_valid_prefix_false (code : string) :
  has_valid_prefix code = false <->
  String.prefix "0" code = false /\ String.prefix "3" code = false
  /\ String.prefix "6" code = false /\ String.prefix "688" code = false
  /\ String.prefix "8" code = false.
Proof.
  unfold has_valid_prefix, valid_prefixes. cbn [existsb].
  rewrite !orb_false_iff. tauto.
Qed.

(** [get_stock_data] either raises before any call, or makes exactly the
    selected call and pre-processes its answer. *)
Lemma get_stock_data_run (request : StockDataRequest) :
  run (get_stock_data self request) env
  = match select_call request env with
    | Raise e => (Raise e, [])
    | Ok c => (rbind (ak env c) preprocess, [c])
    end.
Proof.
  unfold run, get_stock_data, select_call, bind, ask, raise, upstream,
    lift, ret, preprocess.
  destruct (market_type request =? "A").
  { destruct (has_valid_prefix (stock_code request)); cbn [negb app];
      [|reflexivity].
    destruct (ak env _) as [raw|e]; [|reflexivity].
    cbn [rbind]. now destruct (rmapM coerce_row raw). }
  repeat
    (match goal with
     | |- context [if (market_type request =? ?m) then _ else _] =>
         destruct (market_type request =? m)
     end;
     [ cbn [app]; destruct (ak env _) as [raw|e]; [|reflexivity];
       cbn [rbind]; now destruct (rmapM coerce_row raw) | ]).
  reflexivity.
Qed.

(** C5.  For market "A" the fetch raises [ValueError] with no provider
    call made exactly when the code starts with none of 0, 3, 6, 688, 8;
    "600519" goes through to the provider and "12345" is rejected.  For
    HK, US, ETF and LOF the provider is called with the code as it is,
    whatever the code. *)
Theorem a_share_code_check (code : string) (sd ed : option string) :
  ((exists msg,
       run (get_stock_data self (mk_request code "A" sd ed)) env
       = (Raise (ValueError msg), []))
   <-> String.prefix "0" code = false /\ String.prefix "3" code = false
       /\ String.prefix "6" code = false /\ String.prefix "688" code = false
       /\ String.prefix "8" code = false)
  /\ snd (run (get_stock_data self (mk_request "600519" "A" sd ed)) env)
     = [stock_zh_a_hist "600519" (or_default sd (year_ago_ymd env))
          (or_default ed (now_ymd env)) "qfq"]
  /\ run (get_stock_data self (mk_request "12345" "A" sd ed)) env
     = (Raise (ValueError (msg_invalid_code "12345")), [])
  /\ Forall (fun m =>
               exists c,
                 snd (run (get_stock_data self (mk_request code m sd ed)) env)
                 = [c] /\ call_symbol c = code)
       ["HK"; "US"; "ETF"; "LOF"].
Proof.
  split; [|split; [|split]].
  - rewrite get_stock_data_run. unfold select_call, mk_request.
    cbn [market_type stock_code String.eqb Ascii.eqb Bool.eqb].
    rewrite <- has_valid_prefix_false.
    destruct (has_valid_prefix code); cbn [negb].
    + split; [intros [msg H]; discriminate H | discriminate].
    + split; [reflexivity | intros _; eexists; reflexivity].
  - rewrite get_stock_data_run. reflexivity.
  - rewrite get_stock_data_run. reflexivity.
  - repeat constructor; rewrite get_stock_data_run;
      eexists; (split; [reflexivity|reflexivity]).
Qed.

End Gateway.

(* ================================================================== *)
(** ** The normaliser *)
(* ================================================================== *)

Section Normaliser.

Local Open Scope Z_scope.

Lemma insert_by_date_perm (b : Bar) (l : list Bar) :
  Permutation (b :: l) (insert_by_date b l).
Proof.
  induction l as [|h t IH]; cbn [insert_by_date]; [reflexivity|].
  destruct (date b <=? date h); [reflexivity|].
  rewrite perm_swap. now constructor.
Qed.

Lemma sort_values_perm (df : list Bar) : Permutation df (sort_values df).
Proof.
  induction df as [|b df IH]; cbn; [constructor|].
  etransitivity; [|apply insert_by_date_perm]. now constructor.
Qed.

Lemma insert_by_date_dates (b : Bar) (l : list Bar) :
  StronglySorted Z.le (map date l) ->
  StronglySorted Z.le (map date (insert_by_date b l)).
Proof.
  induction l as [|h t IH]; cbn [insert_by_date map]; intro S.
  - repeat constructor.
  - destruct (date b <=? date h) eqn:E.
    + cbn [map]. constructor; [exact S|].
      apply Z.leb_le in E. inversion S as [|? ? _ F]; subst.
      constructor; [exact E|].
      eapply Forall_impl; [|exact F]. intros z Hz. cbn in Hz. lia.
    + apply Z.leb_gt in E. inversion S as [|? ? S' F]; subst.
      cbn [map]. constructor; [now apply IH|].
      apply Forall_forall. intros z Hz.
      apply (Permutation_in (l' := date b :: map date t)) in Hz.
      * destruct Hz as [<-|Hz]; [lia|].
        rewrite Forall_forall in F. now apply F.
      * symmetry. change (date b :: map date t) with (map date (b :: t)).
        apply Permutation_map, insert_by_date_perm.
Qed.

Lemma sort_values_dates (df : list Bar) :
  StronglySorted Z.le (map date (sort_values df)).
Proof.
  induction df as [|b df IH]; cbn; [constructor|].
  now apply insert_by_date_dates.
Qed.

(** On a sorted list, having no duplicate is being strictly increasing. *)
Lemma sorted_nodup_strict (l : list Z) :
  StronglySorted Z.le l -> (NoDup l <-> StronglySorted Z.lt l).
Proof.
  induction 1 as [|z l S IH F]; split; intro H; try constructor.
  - apply IH. now inversion H.
  - inversion H as [|? ? Hn Hd]; subst.
    rewrite Forall_forall in *. intros y Hy.
    specialize (F y Hy). assert (y <> z) by (intros ->; contradiction). lia.
  - inversion H as [|? ? _ F']; subst.
    rewrite Forall_forall in F'. intro Hin. specialize (F' z Hin). lia.
  - apply IH. now inversion H.
Qed.

Lemma dropna_length (rows : list CoercedRow) :
  (List.length (dropna rows) <= List.length rows)%nat.
Proof.
  induction rows as [|r rows IH]; cbn; [lia|].
  destruct (keep_row r); cbn; lia.
Qed.

Lemma preprocess_ok (raw : RawFrame) (df : list Bar) :
  preprocess raw = Ok df ->
  exists rows,
    rmapM coerce_row raw = Ok rows /\ df = sort_values (dropna rows).
Proof.
  unfold preprocess. destruct (rmapM coerce_row raw) as [rows|e]; cbn.
  - intros [= <-]. eauto.
  - discriminate.
Qed.

End Normaliser.

(* ================================================================== *)
(** ** The orchestrator *)
(* ================================================================== *)

Section Orchestrator.

Variable self : StockAnalysisService.
Variable env : Env.

(** C4.  When the fetch succeeds, its frame holds every row that survives
    the coercions and [dropna], no more and no fewer, rows with equal
    dates included, in ascending date order; the dates are strictly
    increasing exactly when the surviving rows carry no date twice. *)
Theorem get_stock_data_sorted_keeps_rows
    (request : StockDataRequest) (df : list Bar) (tr : list call) :
  run (get_stock_data self request) env = (Ok df, tr) ->
  exists c raw rows,
    tr = [c] /\ ak env c = Ok raw /\ rmapM coerce_row raw = Ok rows
    /\ Permutation (dropna rows) df
    /\ StronglySorted Z.le (map date df)
    /\ (StronglySorted Z.lt (map date df)
        <-> NoDup (map date (dropna rows))).
Proof.
  rewrite get_stock_data_run.
  destruct (select_call request env) as [c|e]; [|discriminate].
  destruct (ak env c) as [raw|e] eqn:Hak; cbn [rbind]; [|discriminate].
  intros [= Hp <-].
  destruct (preprocess_ok _ Hp) as (rows & Hrows & ->).
  exists c, raw, rows. repeat (split; [reflexivity || assumption|]).
  split; [apply sort_values_perm|].
  split; [apply sort_values_dates|].
  rewrite <- (sorted_nodup_strict (sort_values_dates (dropna rows))).
  split; apply Permutation_NoDup, Permutation_map;
    [symmetry|]; apply sort_values_perm.
Qed.

Lemma enumerate_length {A} (l : list A) (i : nat) :
  List.length (enumerate i l) = List.length l.
Proof.
  revert i; induction l as [|a l IH]; intro i; cbn; [reflexivity|].
  now rewrite IH.
Qed.

Lemma enumerate_snd {A} (l : list A) (i : nat) :
  map snd (enumerate i l) = l.
Proof.
  revert i; induction l as [|a l IH]; intro i; cbn; [reflexivity|].
  now rewrite IH.
Qed.

Lemma calculate_indicators_bars (df : list Bar) :
  map bar (calculate_indicators self df) = df.
Proof.
  unfold calculate_indicators, _calculate_macd.
  rewrite map_map. rewrite <- (enumerate_snd df 0) at 2.
  apply map_ext. now intros [i b].
Qed.

Lemma calculate_indicators_length (df : list Bar) :
  List.length (calculate_indicators self df) = List.length df.
Proof.
  rewrite <- (calculate_indicators_bars df) at 2. now rewrite length_map.
Qed.

(** How [analyze_stock] continues once the fetch has returned. *)
Lemma analyze_stock_after_fetch
    (request : StockDataRequest) (df : list Bar) (tr : list call) :
  run (get_stock_data self request) env = (Ok df, tr) ->
  run (analyze_stock self request) env
  = (rbind (_calculate_score (calculate_indicators self df)) (fun score_ =>
     rbind (iloc (calculate_indicators self df) (-1)) (fun latest =>
     rbind (iloc (calculate_indicators self df) (-2)) (fun prev =>
     Ok {| res_stock_code := stock_code request;
           res_market_type := market_type request;
           analysis_date := now_iso env;
           score := of_Z score_;
           price := close (bar latest);
           price_change :=
             ((close (bar latest) - close (bar prev)) / close (bar prev)
              * Fin (qz 100))%num;
           ma_trend :=
             if (MA5 latest >? MA20 latest)%num then "UP"%string else "DOWN"%string;
           rsi := if negb (isna (RSI latest)) then Some (RSI latest) else None;
           macd_signal :=
             if (MACD latest >? Signal latest)%num then "BUY"%string else "SELL"%string;
           volume_status :=
             if (Volume_Ratio latest >? Fin (Q2Qc (3 # 2)))%num
             then "HIGH"%string else "NORMAL"%string;
           recommendation := _get_recommendation (of_Z score_) |}))),
     tr).
Proof.
  unfold run. intro H. unfold analyze_stock, bind at 1. rewrite H.
  unfold bind, lift, ask, ret.
  destruct (_calculate_score _); cbn [rbind]; [|reflexivity].
  destruct (iloc _ (-1)); cbn [rbind]; [|reflexivity].
  destruct (iloc _ (-2)); cbn [rbind]; reflexivity.
Qed.

Lemma analyze_stock_fetch_failed
    (request : StockDataRequest) (e : exn) (tr : list call) :
  run (get_stock_data self request) env = (Raise e, tr) ->
  run (analyze_stock self request) env = (Raise e, tr).
Proof.
  unfold run. intro H. unfold analyze_stock, bind at 1. now rewrite H.
Qed.

(** With fewer than two rows one of the positional reads is out of
    bounds. *)
Lemma analyze_stock_short
    (request : StockDataRequest) (df : list Bar) (tr : list call) :
  run (get_stock_data self request) env = (Ok df, tr) ->
  (List.length df < 2)%nat ->
  run (analyze_stock self request) env
  = (Raise (IndexError out_of_bounds), tr).
Proof.
  intros H L. rewrite (analyze_stock_after_fetch _ H).
  pose proof (calculate_indicators_length df) as Hl.
  destruct (calculate_indicators self df) as [|r [|r' rows]].
  - reflexivity.
  - change [r] with ([] ++ [r]).
    rewrite calculate_score_last, iloc_last. cbn [rbind].
    change (-2)%Z with (- Z.of_nat 2)%Z. rewrite iloc_short by (cbn; lia).
    reflexivity.
  - cbn in Hl. lia.
Qed.

(** C6.  When the fetch returns at least two rows the analysis succeeds;
    with [latest] and [prev] the last two rows of the frame with its
    indicators, the price change is
    (latest.close - prev.close) / prev.close * 100, the trend is UP when
    MA5 > MA20 on [latest] and DOWN otherwise, the MACD signal BUY when
    MACD > Signal and SELL otherwise, the volume status HIGH when the
    volume ratio exceeds 1.5 and NORMAL otherwise. *)
Theorem analyze_stock_report
    (request : StockDataRequest) (df : list Bar) (tr : list call) :
  run (get_stock_data self request) env = (Ok df, tr) ->
  (2 <= List.length df)%nat ->
  exists report pre prev latest,
    run (analyze_stock self request) env = (Ok report, tr)
    /\ calculate_indicators self df = pre ++ [prev; latest]
    /\ df = map bar pre ++ [bar prev; bar latest]
    /\ price_change report
       = ((close (bar latest) - close (bar prev)) / close (bar prev)
          * Fin (qz 100))%num
    /\ ma_trend report
       = (if (MA5 latest >? MA20 latest)%num then "UP"%string else "DOWN"%string)
    /\ macd_signal report
       = (if (MACD latest >? Signal latest)%num then "BUY"%string else "SELL"%string)
    /\ volume_status report
       = (if (Volume_Ratio latest >? Fin (Q2Qc (3 # 2)))%num
          then "HIGH"%string else "NORMAL"%string).
Proof.
  intros H L. rewrite (analyze_stock_after_fetch _ H).
  pose proof (calculate_indicators_bars df) as Hb.
  destruct (@split_last_two _ (calculate_indicators self df))
    as (pre & prev & latest & E).
  { now rewrite calculate_indicators_length. }
  rewrite E in *.
  replace (pre ++ [prev; latest]) with ((pre ++ [prev]) ++ [latest])
    by now rewrite <- app_assoc.
  rewrite calculate_score_last, iloc_last. cbn [rbind].
  rewrite <- app_assoc. cbn [app]. rewrite iloc_last_but_one. cbn [rbind].
  eexists; exists pre, prev, latest.
  split; [reflexivity|]. split; [reflexivity|].
  split; [now rewrite <- Hb, map_app|].
  cbn. auto.
Qed.

End Orchestrator.

(* ================================================================== *)
(** ** Series *)
(* ================================================================== *)

Section SeriesFacts.

Lemma at_map_seq (f : nat -> num) (n i : nat) :
  (i < n)%nat -> at_ (map f (seq 0 n)) i = f i.
Proof.
  intro H. unfold at_.
  rewrite (nth_indep _ NaN (f 0%nat)) by now rewrite length_map, length_seq.
  rewrite map_nth, seq_nth by assumption. reflexivity.
Qed.

Lemma at_map (f : num -> num) (xs : Series) (i : nat) :
  (i < List.length xs)%nat -> at_ (map f xs) i = f (at_ xs i).
Proof.
  intro H. unfold at_.
  rewrite (nth_indep _ NaN (f NaN)) by now rewrite length_map.
  apply map_nth.
Qed.

Lemma zip_with_length (f : num -> num -> num) (xs ys : Series) :
  List.length (zip_with f xs ys)
  = Nat.min (List.length xs) (List.length ys).
Proof.
  revert ys; induction xs as [|x xs IH]; intros [|y ys]; cbn; auto.
Qed.

Lemma at_zip_with (f : num -> num -> num) (xs ys : Series) (i : nat) :
  (i < List.length xs)%nat -> (i < List.length ys)%nat ->
  at_ (zip_with f xs ys) i = f (at_ xs i) (at_ ys i).
Proof.
  unfold at_. revert ys i; induction xs as [|x xs IH];
    intros [|y ys] [|i] Hx Hy; cbn in *; try lia; auto.
  apply IH; lia.
Qed.

Lemma rolling_mean_length (w : nat) (xs : Series) :
  List.length (rolling_mean w xs) = List.length xs.
Proof. unfold rolling_mean. now rewrite length_map, length_seq. Qed.

Lemma fsum_Fin_acc (l : list Qc) (a : Qc) :
  fold_left fadd (map Fin l) (Fin a) = Fin (fold_left Qcplus l a).
Proof.
  revert a; induction l as [|x l IH]; intro a; cbn; [reflexivity|].
  apply IH.
Qed.

Lemma fsum_Fin (l : list Qc) : fsum (map Fin l) = Fin (qsum l).
Proof. apply fsum_Fin_acc. Qed.

Lemma filter_is_fin_Fin (l : list Qc) :
  filter is_fin (map Fin l) = map Fin l.
Proof.
  induction l as [|x l IH]; cbn; [reflexivity|]. now rewrite IH.
Qed.

Lemma fdiv_Fin_nonzero (a b : Qc) :
  b <> Q2Qc 0 -> (Fin a / Fin b)%num = Fin (a / b)%Qc.
Proof.
  intro H. unfold fdiv.
  destruct (qsgn b) eqn:E; try reflexivity.
  apply qsgn_Eq in E. contradiction.
Qed.

(** A full window over finite values: the plain mean. *)
Lemma rolling_mean_full (period : nat) (xs : list Qc) (t : nat) :
  (0 < period)%nat -> (period <= t + 1)%nat -> (t < List.length xs)%nat ->
  at_ (rolling_mean period (map Fin xs)) t
  = Fin (spec_rolling_mean period xs t).
Proof.
  intros Hp Hw Ht. unfold rolling_mean.
  rewrite at_map_seq by now rewrite length_map.
  unfold window_at.
  replace (t + 1 - (t + 1 - period))%nat with period by lia.
  rewrite skipn_map, firstn_map, filter_is_fin_Fin, length_map.
  assert (L : List.length (firstn period (skipn (t + 1 - period) xs)) = period).
  { rewrite length_firstn, length_skipn. lia. }
  rewrite L, Nat.leb_refl, fsum_Fin.
  destruct period as [|p]; [lia|].
  rewrite fdiv_Fin_nonzero by apply qn_pos. reflexivity.
Qed.

(** Before the window is full the mean is undefined. *)
Lemma rolling_mean_warm_up (period : nat) (xs : Series) (t : nat) :
  (t + 1 < period)%nat -> at_ (rolling_mean period xs) t = NaN.
Proof.
  intro Hw. destruct (Nat.lt_ge_cases t (List.length xs)) as [Ht|Ht].
  - unfold rolling_mean. rewrite at_map_seq by assumption.
    cbv zeta.
    assert (L : (List.length (filter is_fin (window_at period xs t))
                 <= t + 1)%nat).
    { etransitivity; [apply filter_length_le|].
      unfold window_at. rewrite length_firstn. lia. }
    destruct (Nat.leb_spec period
                (List.length (filter is_fin (window_at period xs t))));
      [lia|reflexivity].
  - unfold at_. apply nth_overflow. now rewrite rolling_mean_length.
Qed.

End SeriesFacts.

(* ================================================================== *)
(** ** Average true range *)
(* ================================================================== *)

Section TrueRange.

Lemma true_range_shifted (pc : num) (df : list Bar) :
  row_max3
    (zip_with fsub (map high df) (map low df))
    (map fabs (zip_with fsub (map high df) (pc :: removelast (map close df))))
    (map fabs (zip_with fsub (map low df) (pc :: removelast (map close df))))
  = tr_tail pc df.
Proof.
  revert pc; induction df as [|b [|b' rest] IH]; intro pc.
  - reflexivity.
  - reflexivity.
  - specialize (IH (close b)).
    cbn [map removelast zip_with row_max3 tr_tail] in *.
    f_equal. exact IH.
Qed.

(** The first bar is compared with a missing close, every later bar with
    the close of the bar before it. *)
Lemma true_range_bar_by_bar (df : list Bar) :
  true_range df = tr_tail NaN df.
Proof.
  destruct df as [|b rest]; [reflexivity|].
  unfold true_range, shift1. cbn [map].
  apply (true_range_shifted NaN (b :: rest)).
Qed.

Lemma fabs_Fin (q : Qc) : fabs (Fin q) = Fin (qabs q).
Proof. unfold fabs, qabs, qsgn. now destruct (q ?= Q2Qc 0)%Qc. Qed.

Lemma fmax_skipna_Fin (a b : Qc) :
  fmax_skipna (Fin a) (Fin b) = Fin (qmax a b).
Proof.
  unfold fmax_skipna, flt, qmax; cbn [fcmp]. now destruct (a ?= b)%Qc.
Qed.

Lemma finite_bar_inv (b : Bar) :
  finite_bar b = true ->
  high b = Fin (qv (high b)) /\ low b = Fin (qv (low b))
  /\ close b = Fin (qv (close b)).
Proof.
  unfold finite_bar.
  destruct (high b), (low b), (close b); cbn; intro H;
    try discriminate H; auto.
Qed.

Lemma tr_with_finite (pc : Qc) (b : Bar) :
  finite_bar b = true ->
  tr_with (Fin pc) b = Fin (spec_tr pc (qv (high b)) (qv (low b))).
Proof.
  intro F. destruct (finite_bar_inv _ F) as (Hh & Hl & _).
  unfold tr_with, spec_tr. rewrite Hh, Hl. cbn [qv fsub fneg fadd].
  now rewrite !fabs_Fin, !fmax_skipna_Fin.
Qed.

Lemma tr_with_first (b : Bar) :
  finite_bar b = true ->
  tr_with NaN b = Fin (qv (high b) - qv (low b))%Qc.
Proof.
  intro F. destruct (finite_bar_inv _ F) as (Hh & Hl & _).
  unfold tr_with. rewrite Hh, Hl. reflexivity.
Qed.

Lemma tr_tail_finite (pc : Qc) (df : list Bar) :
  forallb finite_bar df = true ->
  tr_tail (Fin pc) df = map Fin (spec_tr_from pc df).
Proof.
  revert pc; induction df as [|b rest IH]; intros pc F; [reflexivity|].
  cbn [forallb] in F. apply andb_prop in F as [Fb Fr].
  cbn [tr_tail spec_tr_from map].
  rewrite (tr_with_finite _ _ Fb).
  destruct (finite_bar_inv _ Fb) as (_ & _ & Hc).
  rewrite Hc at 1. now rewrite IH.
Qed.

Lemma true_range_finite (df : list Bar) :
  forallb finite_bar df = true ->
  true_range df = map Fin (spec_true_range df).
Proof.
  intro F. rewrite true_range_bar_by_bar.
  destruct df as [|b rest]; [reflexivity|].
  cbn [forallb] in F. apply andb_prop in F as [Fb Fr].
  cbn [tr_tail spec_true_range map].
  rewrite (tr_with_first _ Fb).
  destruct (finite_bar_inv _ Fb) as (_ & _ & Hc).
  rewrite Hc at 1. now rewrite tr_tail_finite.
Qed.

Lemma spec_tr_from_length (pc : Qc) (df : list Bar) :
  List.length (spec_tr_from pc df) = List.length df.
Proof.
  revert pc; induction df as [|b rest IH]; intro pc; cbn; auto.
Qed.

Lemma spec_true_range_length (df : list Bar) :
  List.length (spec_true_range df) = List.length df.
Proof.
  destruct df; cbn; [reflexivity|]. now rewrite spec_tr_from_length.
Qed.

Lemma qmax_upper (a b : Qc) :
  (a <= qmax a b)%Qc /\ (b <= qmax a b)%Qc /\ (qmax a b = a \/ qmax a b = b).
Proof.
  unfold qmax. destruct (a ?= b)%Qc eqn:E.
  - apply Qceq_alt in E. subst. repeat split; auto using Qcle_refl.
  - apply Qclt_alt in E. repeat split; auto using Qcle_refl, Qclt_le_weak.
  - apply Qcgt_alt in E. repeat split; auto using Qcle_refl, Qclt_le_weak.
Qed.

Lemma qabs_spec (a : Qc) :
  (Q2Qc 0 <= qabs a)%Qc /\ (qabs a = a \/ qabs a = (- a)%Qc).
Proof.
  unfold qabs. destruct (a ?= Q2Qc 0)%Qc eqn:E.
  - apply Qceq_alt in E. subst. split; [apply Qcle_refl|auto].
  - apply Qclt_alt in E. split; [|auto].
    apply Qclt_le_weak. apply Qclt_minus_iff in E.
    now rewrite Qcplus_0_l in E.
  - apply Qcgt_alt in E. split; [now apply Qclt_le_weak|auto].
Qed.

(** C7.  On a series of finite prices the true range is high - low for
    the first bar and, for a bar after a close [c], the largest of
    high - low, |high - c| and |low - c|; once [period] bars are
    available the ATR at bar [t] is the sum of the last [period] true
    ranges divided by [period]. *)
Theorem atr_is_rolling_mean_of_true_range
    (df : list Bar) (period t : nat) :
  forallb finite_bar df = true ->
  (0 < period)%nat -> (period <= t + 1)%nat -> (t < List.length df)%nat ->
  true_range df = map Fin (spec_true_range df)
  /\ at_ (_calculate_atr df period) t
     = Fin (qsum (firstn period (skipn (t + 1 - period) (spec_true_range df)))
            / qn period)%Qc
  /\ (forall b rest, df = b :: rest ->
        nth_error (spec_true_range df) 0
        = Some (qv (high b) - qv (low b))%Qc)
  /\ (forall i p b, nth_error df i = Some p -> nth_error df (S i) = Some b ->
        nth_error (spec_true_range df) (S i)
        = Some (qmax (qmax (qv (high b) - qv (low b))
                           (qabs (qv (high b) - qv (close p))))
                     (qabs (qv (low b) - qv (close p))))%Qc).
Proof.
  intros F Hp Hw Ht.
  split; [now apply true_range_finite|].
  split.
  { unfold _calculate_atr. rewrite (true_range_finite _ F).
    rewrite rolling_mean_full; auto.
    now rewrite spec_true_range_length. }
  split.
  { intros b rest ->. reflexivity. }
  clear. intros i p b Hi Hs.
  destruct df as [|b0 rest]; [destruct i; discriminate|].
  cbn [spec_true_range nth_error].
  revert b0 i p b Hi Hs.
  induction rest as [|b1 rest IH]; intros b0 i p b Hi Hs.
  - destruct i; discriminate.
  - destruct i as [|i].
    + cbn in Hi, Hs. injection Hi as <-. injection Hs as <-. reflexivity.
    + cbn [spec_tr_from nth_error] in *. eapply IH; eassumption.
Qed.

End TrueRange.

(* ================================================================== *)
(** ** Constant series *)
(* ================================================================== *)

Section ConstantSeries.

Lemma at_repeat (x : num) (n i : nat) :
  (i < n)%nat -> at_ (repeat x n) i = x.
Proof.
  unfold at_. revert i; induction n as [|n IH]; intros [|i] H;
    cbn; try lia; auto. apply IH; lia.
Qed.

Lemma flat_column (f : Bar -> num) (x : num) (df : list Bar) :
  Forall (fun b => f b = x) df -> map f df = repeat x (List.length df).
Proof.
  induction 1 as [|b df Hb _ IH]; cbn; [reflexivity|]. now rewrite Hb, IH.
Qed.

Lemma zip_with_repeat (f : num -> num -> num) (a b : num) (n : nat) :
  zip_with f (repeat a n) (repeat b n) = repeat (f a b) n.
Proof. induction n as [|n IH]; cbn; [reflexivity|]. now rewrite IH. Qed.

Lemma removelast_repeat (x : num) (n : nat) :
  removelast (repeat x (S n)) = repeat x n.
Proof.
  induction n as [|n IH]; [reflexivity|].
  change (repeat x (S (S n))) with (x :: repeat x (S n)).
  cbn [removelast]. change (repeat x (S n)) with (x :: repeat x n) at 1.
  now rewrite IH.
Qed.

Lemma firstn_repeat_le (x : Qc) (k n : nat) :
  (k <= n)%nat -> firstn k (repeat x n) = repeat x k.
Proof.
  revert n; induction k as [|k IH]; intros [|n] H; cbn; try lia; auto.
  rewrite IH by lia. reflexivity.
Qed.

Lemma skipn_repeat_sub (x : Qc) (k n : nat) :
  skipn k (repeat x n) = repeat x (n - k).
Proof.
  revert n; induction k as [|k IH]; intros [|n]; cbn; auto.
Qed.

Lemma qsum_acc (l : list Qc) (a : Qc) :
  fold_left Qcplus l a = (a + qsum l)%Qc.
Proof.
  unfold qsum. revert a; induction l as [|x l IH]; intro a; cbn.
  - ring.
  - rewrite (IH (a + x)%Qc), (IH (Q2Qc 0 + x)%Qc). ring.
Qed.

Lemma qsum_repeat (x : Qc) (n : nat) : qsum (repeat x n) = (qn n * x)%Qc.
Proof.
  induction n as [|n IH].
  - unfold qsum. cbn [repeat fold_left].
    change (qn 0) with (Q2Qc 0). ring.
  - rewrite qn_S. unfold qsum in *. cbn [repeat fold_left].
    rewrite qsum_acc. unfold qsum. rewrite IH. ring.
Qed.

(** The exponential mean of a constant series is that constant. *)
Lemma ewm_loop_constant (alpha : num) (st : ewm_state) (c : Qc) (n : nat) :
  weighted st = Fin c ->
  ewm_loop alpha st (repeat (Fin c) n) = repeat (Fin c) n.
Proof.
  revert st; induction n as [|n IH]; intros st Hw; [reflexivity|].
  cbn [repeat ewm_loop].
  assert (E : weighted (ewm_step alpha st (Fin c)) = Fin c).
  { unfold ewm_step. rewrite Hw. cbn [isna].
    unfold fneb. rewrite feqb_refl_Fin. reflexivity. }
  rewrite E. f_equal. now apply IH.
Qed.

Lemma ewm_mean_constant (span : nat) (c : Qc) (n : nat) :
  ewm_mean span (repeat (Fin c) n) = repeat (Fin c) n.
Proof.
  unfold ewm_mean. rewrite map_repeat.
  change (inf_to_nan (Fin c)) with (Fin c).
  destruct n as [|n]; [reflexivity|].
  cbn [repeat]. f_equal. now apply ewm_loop_constant.
Qed.

(** The rolling mean of a constant series is that constant once the
    window is full, and undefined before. *)
Lemma rolling_mean_constant (period : nat) (x : Qc) (n t : nat) :
  (t < n)%nat ->
  at_ (rolling_mean period (repeat (Fin x) n)) t = NaN
  \/ at_ (rolling_mean period (repeat (Fin x) n)) t = Fin x.
Proof.
  intro Ht. destruct period as [|p].
  { left. unfold rolling_mean.
    rewrite at_map_seq by now rewrite repeat_length.
    unfold window_at.
    replace (t + 1 - (t + 1 - 0))%nat with 0%nat by lia. reflexivity. }
  destruct (Nat.lt_ge_cases (t + 1) (S p)) as [Hw|Hw].
  { left. now apply rolling_mean_warm_up. }
  right. rewrite <- (map_repeat x n Fin).
  rewrite rolling_mean_full by (rewrite ?repeat_length; lia).
  f_equal. unfold spec_rolling_mean.
  rewrite skipn_repeat_sub, firstn_repeat_le by lia.
  rewrite qsum_repeat. field. apply qn_pos.
Qed.

Lemma diff_constant (c : Qc) (n : nat) :
  diff (repeat (Fin c) (S n)) = NaN :: repeat (Fin (Q2Qc 0)) n.
Proof.
  unfold diff, shift1.
  change (repeat (Fin c) (S n)) with (Fin c :: repeat (Fin c) n) at 1 2.
  rewrite removelast_repeat. cbn [zip_with]. f_equal.
  rewrite zip_with_repeat. cbn [fsub fneg fadd].
  now rewrite Qcplus_opp_r.
Qed.

(** On a constant series the average gain and the average loss are both
    zero or both undefined, their quotient is undefined, and so is the
    RSI. *)
Lemma rsi_constant (period : nat) (c : Qc) (n t : nat) :
  (t < n)%nat -> at_ (_calculate_rsi (repeat (Fin c) n) period) t = NaN.
Proof.
  intro Ht. unfold _calculate_rsi.
  destruct n as [|n]; [lia|].
  rewrite diff_constant.
  assert (G : where_ (fun d => d >? Fin (qz 0))%num (Fin (qz 0))
                (NaN :: repeat (Fin (Q2Qc 0)) n)
              = repeat (Fin (Q2Qc 0)) (S n)).
  { unfold where_. cbn [map repeat]. f_equal. now rewrite map_repeat. }
  assert (L : map fneg
                (where_ (fun d => d <? Fin (qz 0))%num (Fin (qz 0))
                   (NaN :: repeat (Fin (Q2Qc 0)) n))
              = repeat (Fin (Q2Qc 0)) (S n)).
  { unfold where_. rewrite map_map. cbn [map repeat].
    rewrite map_repeat. reflexivity. }
  rewrite G, L.
  rewrite at_map
    by (rewrite zip_with_length, !rolling_mean_length, repeat_length; lia).
  rewrite at_zip_with
    by (rewrite rolling_mean_length, repeat_length; lia).
  destruct (rolling_mean_constant period (Q2Qc 0) Ht) as [-> | ->];
    reflexivity.
Qed.

Lemma macd_constant (c : Qc) (n : nat) :
  _calculate_macd (repeat (Fin c) n)
  = (repeat (Fin (Q2Qc 0)) n, repeat (Fin (Q2Qc 0)) n,
     repeat (Fin (Q2Qc 0)) n).
Proof.
  unfold _calculate_macd. rewrite !ewm_mean_constant.
  rewrite zip_with_repeat. cbn [fsub fneg fadd]. rewrite Qcplus_opp_r.
  rewrite ewm_mean_constant, zip_with_repeat.
  cbn [fsub fneg fadd]. now rewrite Qcplus_opp_r.
Qed.

Lemma volume_ratio_constant (period : nat) (v : Qc) (n t : nat) :
  (t < n)%nat ->
  let vma := at_ (rolling_mean period (repeat (Fin v) n)) t in
  let ratio :=
    at_ (zip_with fdiv (repeat (Fin v) n)
           (rolling_mean period (repeat (Fin v) n))) t in
  (v <> Q2Qc 0 -> vma <> NaN -> ratio = Fin (Q2Qc 1))
  /\ (v = Q2Qc 0 -> ratio = NaN).
Proof.
  intros Ht vma ratio. subst vma ratio.
  rewrite at_zip_with
    by (rewrite ?rolling_mean_length, repeat_length; lia).
  rewrite at_repeat by assumption.
  destruct (rolling_mean_constant period v Ht) as [-> | ->]; split.
  - intros _ H. now contradiction H.
  - reflexivity.
  - intros Hv _. rewrite fdiv_Fin_nonzero by assumption.
    f_equal. now field.
  - intros ->. reflexivity.
Qed.

End ConstantSeries.

(* ================================================================== *)
(** ** Exponential moving average *)
(* ================================================================== *)

Section Ema.

Local Open Scope Qc_scope.

Lemma feqb_Fin_true (a b : Qc) : feqb (Fin a) (Fin b) = true -> a = b.
Proof.
  unfold feqb; cbn [fcmp]. destruct (a ?= b) eqn:E; try discriminate.
  intros _. now apply Qceq_alt.
Qed.

Lemma ewm_step_finite (alpha y x : Qc) (st : ewm_state) :
  weighted st = Fin y -> old_wt st = Fin (qz 1) ->
  ewm_step (Fin alpha) st (Fin x)
  = {| weighted := Fin ((Q2Qc 1 - alpha) * y + alpha * x);
       old_wt := Fin (qz 1) |}.
Proof.
  intros Hw Ho. unfold ewm_step. rewrite Hw, Ho. cbn [isna].
  f_equal. unfold fneb.
  destruct (feqb (Fin y) (Fin x)) eqn:E; cbn [negb].
  - apply feqb_Fin_true in E. subst x. f_equal. ring.
  - cbn [fsub fneg fadd fmul].
    assert (D : qz 1 * (qz 1 + - alpha) + alpha = Q2Qc 1).
    { change (qz 1) with (Q2Qc 1). ring. }
    rewrite fdiv_Fin_nonzero by (rewrite D; discriminate).
    rewrite D. f_equal. change (qz 1) with (Q2Qc 1). field. discriminate.
Qed.

Lemma ewm_loop_finite (alpha y : Qc) (st : ewm_state) (xs : list Qc) :
  weighted st = Fin y -> old_wt st = Fin (qz 1) ->
  ewm_loop (Fin alpha) st (map Fin xs) = map Fin (spec_ema_from alpha y xs).
Proof.
  revert y st; induction xs as [|x xs IH]; intros y st Hw Ho;
    [reflexivity|].
  cbn [map ewm_loop spec_ema_from].
  rewrite (ewm_step_finite alpha x st Hw Ho). cbn [weighted].
  f_equal. now apply IH.
Qed.

(** On finite values the exponentially weighted mean is the recurrence
    seeded by the first value, with smoothing factor 2 / (period + 1). *)
Lemma calculate_ema_recurrence (period : nat) (xs : list Qc) :
  _calculate_ema (map Fin xs) period = map Fin (spec_ema period xs).
Proof.
  unfold _calculate_ema, ewm_mean, spec_ema. rewrite map_map.
  change (map (fun x => inf_to_nan (Fin x)) xs) with (map Fin xs).
  destruct xs as [|x0 xs]; [reflexivity|]. cbn [map]. f_equal.
  rewrite fdiv_Fin_nonzero by (rewrite Nat.add_1_r; apply qn_pos).
  now apply ewm_loop_finite.
Qed.

End Ema.

(* ================================================================== *)
(** ** Flat series *)
(* ================================================================== *)

Section FlatSeries.

Variable self : StockAnalysisService.

Lemma enumerate_in {A} (l : list A) (k i : nat) (a : A) :
  In (i, a) (enumerate k l) -> (k <= i < k + List.length l)%nat.
Proof.
  revert k; induction l as [|x l IH]; intros k H; cbn in *; [tauto|].
  destruct H as [[= <- <-]|H]; [lia|]. apply IH in H. lia.
Qed.

(** Every row of the augmented frame reads its indicators at one
    position of the columns. *)
Lemma calculate_indicators_rows (df : list Bar) (r : Row) :
  In r (calculate_indicators self df) ->
  exists i,
    (i < List.length df)%nat
    /\ MA5 r = at_ (_calculate_ema (map close df) (ma_short (params self))) i
    /\ MA20 r = at_ (_calculate_ema (map close df) (ma_medium (params self))) i
    /\ MA60 r = at_ (_calculate_ema (map close df) (ma_long (params self))) i
    /\ RSI r = at_ (_calculate_rsi (map close df) (rsi_period (params self))) i
    /\ MACD r = at_ (fst (fst (_calculate_macd (map close df)))) i
    /\ Volume_MA r
       = at_ (rolling_mean (volume_ma_period (params self)) (map volume df)) i
    /\ Volume_Ratio r
       = at_ (zip_with fdiv (map volume df)
                (rolling_mean (volume_ma_period (params self))
                   (map volume df))) i.
Proof.
  unfold calculate_indicators, _calculate_macd. cbn [fst].
  intro H. apply in_map_iff in H as ([i b] & <- & Hin).
  apply enumerate_in in Hin. exists i. cbn.
  repeat split; auto; lia.
Qed.

(** C8.  On a series whose close is the constant [c] and whose volume is
    the constant [v], the augmented frame has one row per bar, in order,
    and every one of these rows has MA5 = MA20 = MA60 = c, MACD = 0 and
    an undefined RSI, nothing being raised; where the volume average is
    defined the volume ratio is 1 when [v] is not zero, and it is
    undefined when [v] is zero.  The averages are the recurrence seeded
    by the first value with smoothing factor 2 / (period + 1). *)
Theorem flat_series_indicators (df : list Bar) (c v : Qc) :
  Forall (fun b => close b = Fin c /\ volume b = Fin v) df ->
  map bar (calculate_indicators self df) = df
  /\ Forall (fun r =>
            MA5 r = Fin c /\ MA20 r = Fin c /\ MA60 r = Fin c
            /\ MACD r = Fin (Q2Qc 0)
            /\ RSI r = NaN
            /\ (v <> Q2Qc 0 -> Volume_MA r <> NaN ->
                Volume_Ratio r = Fin (Q2Qc 1))
            /\ (v = Q2Qc 0 -> Volume_Ratio r = NaN))
         (calculate_indicators self df)
  /\ (forall period xs,
        _calculate_ema (map Fin xs) period = map Fin (spec_ema period xs)).
Proof.
  intro H. split; [apply calculate_indicators_bars|].
  split; [|intros; apply calculate_ema_recurrence].
  assert (Hc : map close df = repeat (Fin c) (List.length df)).
  { apply flat_column. eapply Forall_impl; [|exact H]. now intros b [? _]. }
  assert (Hv : map volume df = repeat (Fin v) (List.length df)).
  { apply flat_column. eapply Forall_impl; [|exact H]. now intros b [_ ?]. }
  apply Forall_forall. intros r Hr.
  destruct (calculate_indicators_rows _ _ Hr)
    as (i & Hi & E5 & E20 & E60 & Er & Em & Ea & Ev).
  rewrite Hc in E5, E20, E60, Er, Em. rewrite Hv in Ea, Ev.
  unfold _calculate_ema in *. rewrite ewm_mean_constant in E5, E20, E60.
  rewrite at_repeat in E5, E20, E60 by assumption.
  rewrite macd_constant in Em. cbn [fst] in Em.
  rewrite at_repeat in Em by assumption.
  rewrite rsi_constant in Er by assumption.
  rewrite E5, E20, E60, Em, Er, Ea, Ev.
  repeat (split; [reflexivity|]).
  now apply volume_ratio_constant.
Qed.

End FlatSeries.

(* ================================================================== *)
(** ** Too few rows *)
(* ================================================================== *)

(** C3.  When the fetch returns fewer than two rows the analysis raises
    the [IndexError] of the positional read, with nothing else done; the
    endpoint reports it as a failed analysis, not as an argument error. *)
Theorem short_frame_raises_index_error
    (env : Env) (request : StockDataRequest) (df : list Bar)
    (tr : list call) :
  run (get_stock_data init request) env = (Ok df, tr) ->
  (List.length df < 2)%nat ->
  run (analyze_stock init request) env
  = (Raise (IndexError out_of_bounds), tr)
  /\ Endpoint.analyze_stock env request
     = {| Endpoint.success := false;
          Endpoint.message := ("分析失败: " ++ out_of_bounds)%string;
          Endpoint.data := None; Endpoint.status_code := 500 |}
  /\ String.prefix "参数错误" (Endpoint.message (Endpoint.analyze_stock env request)) = false.
Proof.
  intros H L. pose proof (analyze_stock_short init env request H L) as E.
  split; [exact E|].
  unfold Endpoint.analyze_stock. rewrite E. cbn [fst rbind]. split; reflexivity.
Qed.

(** A frame of one valid row makes the analysis fail exactly as a
    provider that raised the same [IndexError] itself: same exception,
    same calls, same response. *)
Lemma short_frame_error_same_as_provider_error :
  run (get_stock_data init sample_request)
    (sample_env (Ok [sample_row 1 10 100]))
  = (Ok [sample_bar 1 10 100], [sample_call])
  /\ run (analyze_stock init sample_request)
       (sample_env (Ok [sample_row 1 10 100]))
     = (Raise (IndexError out_of_bounds), [sample_call])
  /\ run (analyze_stock init sample_request)
       (sample_env (Raise (IndexError out_of_bounds)))
     = (Raise (IndexError out_of_bounds), [sample_call])
  /\ Endpoint.analyze_stock (sample_env (Ok [sample_row 1 10 100])) sample_request
     = Endpoint.analyze_stock (sample_env (Raise (IndexError out_of_bounds)))
         sample_request.
Proof.
  assert (H : run (get_stock_data init sample_request)
                (sample_env (Ok [sample_row 1 10 100]))
              = (Ok [sample_bar 1 10 100], [sample_call])) by reflexivity.
  assert (E1 : run (analyze_stock init sample_request)
                 (sample_env (Ok [sample_row 1 10 100]))
               = (Raise (IndexError out_of_bounds), [sample_call])).
  { apply (analyze_stock_short init _ _ H). cbn. lia. }
  assert (E2 : run (analyze_stock init sample_request)
                 (sample_env (Raise (IndexError out_of_bounds)))
               = (Raise (IndexError out_of_bounds), [sample_call])).
  { now apply analyze_stock_fetch_failed. }
  split; [exact H|]. split; [exact E1|]. split; [exact E2|].
  unfold Endpoint.analyze_stock. now rewrite E1, E2.
Qed.

(* ================================================================== *)
(** ** Duplicate dates and zero volume *)
(* ================================================================== *)

(** Two provider rows of the same day both reach the normalised frame. *)
Lemma duplicate_dates_are_kept :
  run (get_stock_data init sample_request)
    (sample_env (Ok [sample_row 5 10 100; sample_row 5 11 200;
                     sample_row 3 9 50]))
  = (Ok [sample_bar 3 9 50; sample_bar 5 10 100; sample_bar 5 11 200],
     [sample_call])
  /\ ~ NoDup (map date [sample_bar 3 9 50; sample_bar 5 10 100;
                        sample_bar 5 11 200])
  /\ ~ StronglySorted Z.lt
         (map date [sample_bar 3 9 50; sample_bar 5 10 100;
                    sample_bar 5 11 200]).
Proof.
  split; [reflexivity|]. cbn [map date sample_bar]. split; intro H.
  - inversion H as [|? ? _ H1]; subst.
    inversion H1 as [|? ? N _]; subst. apply N. now left.
  - inversion H as [|? ? H1 _]; subst.
    inversion H1 as [|? ? _ F]; subst.
    inversion F as [|? ? L _]; subst. lia.
Qed.

(** Twenty flat days without any volume: on the last day the volume
    average is defined (it is zero) and the volume ratio is not 1 but
    undefined. *)
Lemma flat_zero_volume_ratio_undefined :
  Forall (fun b => close b = Fin (qz 10) /\ volume b = Fin (qz 0))
    (flat_frame 20 0)
  /\ exists r,
       nth_error (calculate_indicators init (flat_frame 20 0)) 19 = Some r
       /\ Volume_MA r <> NaN
       /\ Volume_Ratio r = NaN
       /\ Volume_Ratio r <> Fin (Q2Qc 1).
Proof.
  split.
  { unfold flat_frame. cbn [seq map]. repeat constructor. }
  eexists. split; [vm_compute; reflexivity|].
  cbn [Volume_MA Volume_Ratio]. repeat split; discriminate.
Qed.

(* ================================================================== *)
(** ** The theorems at sample inputs *)
(* ================================================================== *)

Lemma recommendation_thresholds_witness :
  ((qz 80 <= qz 85)%Qc /\ _get_recommendation (Fin (qz 85)) = strongly_buy)
  /\ ((qz 60 <= qz 79)%Qc /\ (qz 79 < qz 80)%Qc
      /\ _get_recommendation (Fin (qz 79)) = buy)
  /\ ((qz 40 <= qz 40)%Qc /\ (qz 40 < qz 60)%Qc
      /\ _get_recommendation (Fin (qz 40)) = hold)
  /\ ((qz 20 <= qz 35)%Qc /\ (qz 35 < qz 40)%Qc
      /\ _get_recommendation (Fin (qz 35)) = sell)
  /\ ((qz 15 < qz 20)%Qc /\ _get_recommendation (Fin (qz 15)) = strongly_sell).
Proof.
  assert (A1 : (qz 80 <= qz 85)%Qc) by (unfold Qcle, Qle; simpl; lia).
  assert (A2 : (qz 60 <= qz 79)%Qc) by (unfold Qcle, Qle; simpl; lia).
  assert (A3 : (qz 79 < qz 80)%Qc) by (unfold Qclt, Qlt; simpl; lia).
  assert (A4 : (qz 40 <= qz 40)%Qc) by (unfold Qcle, Qle; simpl; lia).
  assert (A5 : (qz 40 < qz 60)%Qc) by (unfold Qclt, Qlt; simpl; lia).
  assert (A6 : (qz 20 <= qz 35)%Qc) by (unfold Qcle, Qle; simpl; lia).
  assert (A7 : (qz 35 < qz 40)%Qc) by (unfold Qclt, Qlt; simpl; lia).
  assert (A8 : (qz 15 < qz 20)%Qc) by (unfold Qclt, Qlt; simpl; lia).
  split; [split; [exact A1|]|].
  { exact (proj1 (recommendation_thresholds (qz 85)) A1). }
  split; [split; [exact A2|split; [exact A3|]]|].
  { exact (proj1 (proj2 (recommendation_thresholds (qz 79))) A2 A3). }
  split; [split; [exact A4|split; [exact A5|]]|].
  { exact (proj1 (proj2 (proj2 (recommendation_thresholds (qz 40)))) A4 A5). }
  split; [split; [exact A6|split; [exact A7|]]|].
  { exact (proj1 (proj2 (proj2 (proj2
             (recommendation_thresholds (qz 35))))) A6 A7). }
  split; [exact A8|].
  exact (proj1 (proj2 (proj2 (proj2 (proj2
           (recommendation_thresholds (qz 15)))))) A8).
Defined.

Lemma short_frame_raises_index_error_witness :
  run (get_stock_data init sample_request)
    (sample_env (Ok [sample_bad_row 2; sample_row 1 10 100]))
  = (Ok [sample_bar 1 10 100], [sample_call])
  /\ (List.length [sample_bar 1 10 100] < 2)%nat
  /\ run (analyze_stock init sample_request)
       (sample_env (Ok [sample_bad_row 2; sample_row 1 10 100]))
     = (Raise (IndexError out_of_bounds), [sample_call])
  /\ Endpoint.analyze_stock
       (sample_env (Ok [sample_bad_row 2; sample_row 1 10 100]))
       sample_request
     = {| Endpoint.success := false;
          Endpoint.message := ("分析失败: " ++ out_of_bounds)%string;
          Endpoint.data := None; Endpoint.status_code := 500 |}
  /\ String.prefix "参数错误"
       (Endpoint.message
          (Endpoint.analyze_stock
             (sample_env (Ok [sample_bad_row 2; sample_row 1 10 100]))
             sample_request)) = false.
Proof.
  assert (H : run (get_stock_data init sample_request)
                (sample_env (Ok [sample_bad_row 2; sample_row 1 10 100]))
              = (Ok [sample_bar 1 10 100], [sample_call])) by reflexivity.
  assert (L : (List.length [sample_bar 1 10 100] < 2)%nat) by (simpl; lia).
  split; [exact H|]. split; [exact L|].
  exact (short_frame_raises_index_error _ _ H L).
Defined.

Lemma get_stock_data_sorted_keeps_rows_witness :
  run (get_stock_data init sample_request)
    (sample_env (Ok [sample_row 5 10 100; sample_bad_row 4;
                     sample_row 5 11 200; sample_row 3 9 50]))
  = (Ok [sample_bar 3 9 50; sample_bar 5 10 100; sample_bar 5 11 200],
     [sample_call])
  /\ exists c raw rows,
       [sample_call] = [c]
       /\ ak (sample_env (Ok [sample_row 5 10 100; sample_bad_row 4;
                              sample_row 5 11 200; sample_row 3 9 50])) c
          = Ok raw
       /\ rmapM coerce_row raw = Ok rows
       /\ Permutation (dropna rows)
            [sample_bar 3 9 50; sample_bar 5 10 100; sample_bar 5 11 200]
       /\ StronglySorted Z.le
            (map date [sample_bar 3 9 50; sample_bar 5 10 100;
                       sample_bar 5 11 200])
       /\ (StronglySorted Z.lt
             (map date [sample_bar 3 9 50; sample_bar 5 10 100;
                        sample_bar 5 11 200])
           <-> NoDup (map date (dropna rows))).
Proof.
  assert (H : run (get_stock_data init sample_request)
                (sample_env (Ok [sample_row 5 10 100; sample_bad_row 4;
                                 sample_row 5 11 200; sample_row 3 9 50]))
              = (Ok [sample_bar 3 9 50; sample_bar 5 10 100;
                     sample_bar 5 11 200], [sample_call])) by reflexivity.
  split; [exact H|].
  exact (get_stock_data_sorted_keeps_rows init _ sample_request H).
Defined.

Lemma a_share_code_check_witness :
  (String.prefix "0" "12345" = false /\ String.prefix "3" "12345" = false
   /\ String.prefix "6" "12345" = false
   /\ String.prefix "688" "12345" = false
   /\ String.prefix "8" "12345" = false)%string
  /\ exists msg,
       run (get_stock_data init (mk_request "12345" "A" None None))
         (sample_env (Ok []))
       = (Raise (ValueError msg), []).
Proof.
  assert (H : (String.prefix "0" "12345" = false
               /\ String.prefix "3" "12345" = false
               /\ String.prefix "6" "12345" = false
               /\ String.prefix "688" "12345" = false
               /\ String.prefix "8" "12345" = false)%string)
    by (repeat split; reflexivity).
  split; [exact H|].
  exact (proj2 (proj1 (a_share_code_check init (sample_env (Ok []))
                         "12345" None None)) H).
Defined.

Lemma analyze_stock_report_witness :
  run (get_stock_data init sample_request)
    (sample_env (Ok [sample_row 2 12 300; sample_row 1 10 100]))
  = (Ok [sample_bar 1 10 100; sample_bar 2 12 300], [sample_call])
  /\ (2 <= List.length [sample_bar 1 10 100; sample_bar 2 12 300])%nat
  /\ exists report pre prev latest,
       run (analyze_stock init sample_request)
         (sample_env (Ok [sample_row 2 12 300; sample_row 1 10 100]))
       = (Ok report, [sample_call])
       /\ calculate_indicators init
            [sample_bar 1 10 100; sample_bar 2 12 300]
          = pre ++ [prev; latest]
       /\ [sample_bar 1 10 100; sample_bar 2 12 300]
          = map bar pre ++ [bar prev; bar latest]
       /\ price_change report
          = ((close (bar latest) - close (bar prev)) / close (bar prev)
             * Fin (qz 100))%num
       /\ ma_trend report
          = (if (MA5 latest >? MA20 latest)%num
             then "UP"%string else "DOWN"%string)
       /\ macd_signal report
          = (if (MACD latest >? Signal latest)%num
             then "BUY"%string else "SELL"%string)
       /\ volume_status report
          = (if (Volume_Ratio latest >? Fin (Q2Qc (3 # 2)))%num
             then "HIGH"%string else "NORMAL"%string).
Proof.
  assert (H : run (get_stock_data init sample_request)
                (sample_env (Ok [sample_row 2 12 300; sample_row 1 10 100]))
              = (Ok [sample_bar 1 10 100; sample_bar 2 12 300],
                 [sample_call])) by reflexivity.
  assert (L : (2 <= List.length
                      [sample_bar 1 10 100; sample_bar 2 12 300])%nat)
    by (simpl; lia).
  split; [exact H|]. split; [exact L|].
  exact (analyze_stock_report init _ sample_request H L).
Defined.

Lemma atr_is_rolling_mean_of_true_range_witness :
  forallb finite_bar
    [sample_bar 1 10 100; sample_bar 2 14 100; sample_bar 3 9 100] = true
  /\ (0 < 2)%nat /\ (2 <= 2 + 1)%nat
  /\ (2 < List.length
            [sample_bar 1 10 100; sample_bar 2 14 100; sample_bar 3 9 100])%nat
  /\ at_ (_calculate_atr
            [sample_bar 1 10 100; sample_bar 2 14 100; sample_bar 3 9 100] 2)
         2
     = Fin (qsum (firstn 2 (skipn (2 + 1 - 2)
                    (spec_true_range
                       [sample_bar 1 10 100; sample_bar 2 14 100;
                        sample_bar 3 9 100])))
            / qn 2)%Qc.
Proof.
  assert (F : forallb finite_bar
                [sample_bar 1 10 100; sample_bar 2 14 100;
                 sample_bar 3 9 100] = true) by reflexivity.
  assert (A : (0 < 2)%nat) by lia.
  assert (B : (2 <= 2 + 1)%nat) by lia.
  assert (C : (2 < List.length
                     [sample_bar 1 10 100; sample_bar 2 14 100;
                      sample_bar 3 9 100])%nat) by (simpl; lia).
  split; [exact F|]. split; [exact A|]. split; [exact B|]. split; [exact C|].
  exact (proj1 (proj2 (atr_is_rolling_mean_of_true_range _ F A B C))).
Defined.

Lemma flat_series_indicators_witness :
  Forall (fun b => close b = Fin (qz 10) /\ volume b = Fin (qz 7))
    (flat_frame 25 7)
  /\ map bar (calculate_indicators init (flat_frame 25 7)) = flat_frame 25 7
  /\ List.length (calculate_indicators init (flat_frame 25 7)) = 25%nat
  /\ Forall (fun r =>
               MA5 r = Fin (qz 10) /\ MA20 r = Fin (qz 10)
               /\ MA60 r = Fin (qz 10)
               /\ MACD r = Fin (Q2Qc 0)
               /\ RSI r = NaN
               /\ (qz 7 <> Q2Qc 0 -> Volume_MA r <> NaN ->
                   Volume_Ratio r = Fin (Q2Qc 1))
               /\ (qz 7 = Q2Qc 0 -> Volume_Ratio r = NaN))
       (calculate_indicators init (flat_frame 25 7)).
Proof.
  assert (H : Forall (fun b => close b = Fin (qz 10)
                               /\ volume b = Fin (qz 7))
                (flat_frame 25 7)).
  { unfold flat_frame. cbn [seq map]. repeat constructor. }
  split; [exact H|].
  split; [exact (proj1 (flat_series_indicators init H))|].
  split.
  - rewrite <- (length_map bar).
    rewrite (proj1 (flat_series_indicators init H)). reflexivity.
  - exact (proj1 (proj2 (flat_series_indicators init H))).
Defined.

Lemma score_depends_on_last_row_only_witness :
  MA5 (sample_indicators (sample_bar 9 50 100) 12 11 10 50 1 0 2)
  = MA5 (sample_indicators (sample_bar 4 7 900) 12 11 10 50 1 0 2)
  /\ _calculate_score
       ([sample_indicators (sample_bar 8 40 100) 1 2 3 80 0 1 0]
        ++ [sample_indicators (sample_bar 9 50 100) 12 11 10 50 1 0 2])
     = _calculate_score
         ([] ++ [sample_indicators (sample_bar 4 7 900) 12 11 10 50 1 0 2]).
Proof.
  split; [reflexivity|].
  exact (score_depends_on_last_row_only
           [sample_indicators (sample_bar 8 40 100) 1 2 3 80 0 1 0] []
           (sample_indicators (sample_bar 9 50 100) 12 11 10 50 1 0 2)
           (sample_indicators (sample_bar 4 7 900) 12 11 10 50 1 0 2)
           eq_refl eq_refl eq_refl eq_refl eq_refl eq_refl eq_refl).
Defined.

Lemma score_multiple_of_five_witness :
  exists t r m v : Z,
    _calculate_score
      ([] ++ [sample_indicators (sample_bar 9 50 100) 12 11 10 50 1 0 2])
    = Ok (t + r + m + v)%Z
    /\ In t [0; 15; 30]%Z /\ In r [0; 15; 20]%Z
    /\ In m [0; 20]%Z /\ In v [0; 15; 30]%Z
    /\ ((t + r + m + v) mod 5 = 0)%Z
    /\ Forall (fun b => (t + r + m + v < b -> t + r + m + v <= b - 5)%Z)
         [80; 60; 40; 20]%Z.
Proof.
  exact (score_multiple_of_five []
           (sample_indicators (sample_bar 9 50 100) 12 11 10 50 1 0 2)).
Defined.

(* ================================================================== *)
(** ** More on the gateway *)
(* ================================================================== *)

Section GatewayMore.

Variable self : StockAnalysisService.
Variable env : Env.

Local Open Scope string_scope.

Lemma select_call_symbol (request : StockDataRequest) (c : call) :
  select_call request env = Ok c -> call_symbol c = stock_code request.
Proof.
  unfold select_call.
  repeat match goal with
         | |- context [if ?b then _ else _] => destruct b
         end; intros [= <-]; reflexivity.
Qed.

Lemma select_call_raises (request : StockDataRequest) :
  (exists e, select_call request env = Raise e)
  <-> (market_type request = "A"
       /\ has_valid_prefix (stock_code request) = false)
      \/ ~ In (market_type request) supported_markets.
Proof.
  unfold select_call, supported_markets.
  destruct (market_type request =? "A") eqn:EA.
  { apply String.eqb_eq in EA.
    destruct (has_valid_prefix (stock_code request)) eqn:EP; cbn [negb].
    - split; [intros [e H]; discriminate H|].
      intros [[_ H]|H]; [discriminate H|].
      exfalso. apply H. rewrite EA. now left.
    - split; [intros _; left; auto | intros _; eauto]. }
  apply String.eqb_neq in EA.
  destruct (market_type request =? "HK") eqn:EH.
  { apply String.eqb_eq in EH. split; [intros [e H]; discriminate H|].
    intros [[H _]|H]; [contradiction|]. exfalso. apply H. rewrite EH.
    cbn; auto. }
  apply String.eqb_neq in EH.
  destruct (market_type request =? "US") eqn:EU.
  { apply String.eqb_eq in EU. split; [intros [e H]; discriminate H|].
    intros [[H _]|H]; [contradiction|]. exfalso. apply H. rewrite EU.
    cbn; auto. }
  apply String.eqb_neq in EU.
  destruct (market_type request =? "ETF") eqn:EE.
  { apply String.eqb_eq in EE. split; [intros [e H]; discriminate H|].
    intros [[H _]|H]; [contradiction|]. exfalso. apply H. rewrite EE.
    cbn; auto 6. }
  apply String.eqb_neq in EE.
  destruct (market_type request =? "LOF") eqn:EL.
  { apply String.eqb_eq in EL. split; [intros [e H]; discriminate H|].
    intros [[H _]|H]; [contradiction|]. exfalso. apply H. rewrite EL.
    cbn; auto 7. }
  apply String.eqb_neq in EL.
  split; [|intros _; eauto].
  intros _. right. cbn. intros [H|[H|[H|[H|[H|[]]]]]]; congruence.
Qed.

(** X1.  A fetch makes at most one provider call, for the requested
    code; it makes none exactly when the market is "A" with a code of no
    valid prefix or when the market type is none of A, HK, US, ETF, LOF,
    and in the latter case it raises [ValueError] naming the market
    type. *)
Theorem fetch_calls_provider_at_most_once (request : StockDataRequest) :
  (snd (run (get_stock_data self request) env) = []
   \/ exists c,
        snd (run (get_stock_data self request) env) = [c]
        /\ call_symbol c = stock_code request)
  /\ (snd (run (get_stock_data self request) env) = []
      <-> (market_type request = "A"
           /\ has_valid_prefix (stock_code request) = false)
          \/ ~ In (market_type request) supported_markets)
  /\ (~ In (market_type request) supported_markets ->
      run (get_stock_data self request) env
      = (Raise (ValueError (msg_unsupported_market (market_type request))),
         [])).
Proof.
  rewrite get_stock_data_run.
  pose proof (select_call_raises request) as R.
  pose proof (select_call_symbol request) as S.
  destruct (select_call request env) as [c|e] eqn:E.
  - split; [right; exists c; split; [reflexivity|now apply S]|].
    split.
    + split; [discriminate|]. intro H. apply R in H as [e H]. discriminate H.
    + intro H. assert (X : exists e, Ok c = Raise e) by (apply R; now right).
      destruct X as [e X]. discriminate X.
  - split; [now left|]. split.
    + split; [intros _; apply R; eauto | reflexivity].
    + intro H. clear R S. unfold select_call, supported_markets in *.
      cbn [In] in H.
      destruct (market_type request =? "A") eqn:EA;
        [apply String.eqb_eq in EA; exfalso; apply H; auto|].
      destruct (market_type request =? "HK") eqn:EH;
        [apply String.eqb_eq in EH; exfalso; apply H; auto|].
      destruct (market_type request =? "US") eqn:EU;
        [apply String.eqb_eq in EU; exfalso; apply H; auto|].
      destruct (market_type request =? "ETF") eqn:EE;
        [apply String.eqb_eq in EE; exfalso; apply H; auto 6|].
      destruct (market_type request =? "LOF") eqn:EL;
        [apply String.eqb_eq in EL; exfalso; apply H; auto 7|].
      injection E as <-. reflexivity.
Qed.

Lemma or_default_blank (d : option string) (dflt : string) :
  blank d -> or_default d dflt = dflt.
Proof. intros [-> | ->]; reflexivity. Qed.

Lemma or_default_given (s dflt : string) :
  s <> "" -> or_default (Some s) dflt = s.
Proof.
  intro H. unfold or_default.
  destruct (s =? "") eqn:E; [|reflexivity].
  apply String.eqb_eq in E. contradiction.
Qed.

(** X2.  Each date of the request is handled on its own.  A fetch on
    "HK", "US", "ETF" or "LOF" makes exactly one provider call.  For the
    call a fetch makes on a market other than "HK", a start date that is
    missing or the empty string is replaced by the day a year ago and
    any other start date is passed as given, and likewise an end date
    is replaced by today or passed as given; on "HK" the call carries no
    date at all. *)
Theorem blank_dates_mean_default_window (request : StockDataRequest) :
  (In (market_type request) ["HK"; "US"; "ETF"; "LOF"] ->
   exists c, snd (run (get_stock_data self request) env) = [c])
  /\ forall c, snd (run (get_stock_data self request) env) = [c] ->
     (market_type request = "HK" ->
      c = stock_hk_daily (stock_code request) "qfq")
     /\ (market_type request <> "HK" ->
         (blank (start_date request) ->
          call_start_date c = Some (year_ago_ymd env))
         /\ (forall s, start_date request = Some s -> s <> "" ->
               call_start_date c = Some s)
         /\ (blank (end_date request) ->
             call_end_date c = Some (now_ymd env))
         /\ (forall s, end_date request = Some s -> s <> "" ->
               call_end_date c = Some s)).
Proof.
  split.
  { intro H. rewrite get_stock_data_run. unfold select_call.
    destruct H as [H|[H|[H|[H|[]]]]]; rewrite <- H; cbn [String.eqb Ascii.eqb Bool.eqb];
      eexists; reflexivity. }
  intros c T. assert (S : select_call request env = Ok c).
  { rewrite get_stock_data_run in T.
    destruct (select_call request env); cbn [snd] in T; congruence. }
  clear T. unfold select_call in S.
  assert (D : forall x y,
             (blank (start_date request) ->
              Some (or_default (start_date request) x) = Some x)
             /\ (forall s, start_date request = Some s -> s <> "" ->
                  Some (or_default (start_date request) x) = Some s)
             /\ (blank (end_date request) ->
                 Some (or_default (end_date request) y) = Some y)
             /\ (forall s, end_date request = Some s -> s <> "" ->
                  Some (or_default (end_date request) y) = Some s)).
  { intros x y. split; [|split; [|split]].
    - intro B. now rewrite (or_default_blank _ B).
    - intros s E N. rewrite E. now rewrite (or_default_given _ N).
    - intro B. now rewrite (or_default_blank _ B).
    - intros s E N. rewrite E. now rewrite (or_default_given _ N). }
  destruct (market_type request =? "A") eqn:EA.
  { apply String.eqb_eq in EA.
    destruct (negb (has_valid_prefix (stock_code request)));
      [discriminate S|]. injection S as <-.
    split; [intro K; rewrite EA in K; discriminate K|]. intros _.
    cbn [call_start_date call_end_date]. apply D. }
  destruct (market_type request =? "HK") eqn:EH.
  { apply String.eqb_eq in EH. injection S as <-.
    split; [reflexivity|]. intro K. contradiction. }
  apply String.eqb_neq in EH.
  split; [intro K; contradiction|]. intros _.
  destruct (market_type request =? "US");
    [injection S as <-; cbn [call_start_date call_end_date]; apply D|].
  destruct (market_type request =? "ETF");
    [injection S as <-; cbn [call_start_date call_end_date]; apply D|].
  destruct (market_type request =? "LOF");
    [injection S as <-; cbn [call_start_date call_end_date]; apply D|].
  discriminate S.
Qed.

End GatewayMore.

(* ================================================================== *)
(** ** More on the normaliser *)
(* ================================================================== *)

Section NormaliserMore.

Local Open Scope Z_scope.

Lemma coerce_row_ok (r : RawRow) :
  bad_date r = false -> exists c, coerce_row r = Ok c.
Proof.
  unfold bad_date, coerce_row. destruct (raw_date r); cbn; eauto.
  discriminate.
Qed.

Lemma coerce_row_bad (r : RawRow) (msg : string) :
  raw_date r = DateBad msg -> coerce_row r = Raise (ValueError msg).
Proof. unfold coerce_row. now intros ->. Qed.

Lemma rmapM_coerce_raises (raw : RawFrame) :
  existsb bad_date raw = true ->
  exists msg, rmapM coerce_row raw = Raise (ValueError msg).
Proof.
  induction raw as [|r raw IH]; cbn [existsb rmapM]; [discriminate|].
  intro H. destruct (bad_date r) eqn:B.
  - unfold bad_date in B. destruct (raw_date r) as [| |msg] eqn:D;
      try discriminate B.
    exists msg. now rewrite (coerce_row_bad _ D).
  - cbn [orb] in H. destruct (coerce_row_ok _ B) as [c ->].
    destruct (IH H) as [msg ->]. cbn. eauto.
Qed.

Lemma keep_row_no_missing (c : CoercedRow) (b : Bar) :
  keep_row c = Some b -> no_missing b = true.
Proof.
  unfold keep_row, no_missing. destruct (c_date c); [|discriminate].
  destruct (isna (c_open c)) eqn:E1, (isna (c_close c)) eqn:E2,
    (isna (c_high c)) eqn:E3, (isna (c_low c)) eqn:E4,
    (isna (c_volume c)) eqn:E5, (c_rest_na c);
    cbn; try discriminate; intros [= <-]; cbn.
  now rewrite E1, E2, E3, E4, E5.
Qed.

Lemma dropna_in (rows : list CoercedRow) (b : Bar) :
  In b (dropna rows) <-> exists c, In c rows /\ keep_row c = Some b.
Proof.
  induction rows as [|c rows IH]; cbn [dropna In].
  - split; [tauto | intros (c & [] & _)].
  - destruct (keep_row c) as [b'|] eqn:E; cbn [In]; rewrite IH; split.
    + intros [<-|(c' & H & K)]; eauto.
    + intros (c' & [<-|H] & K); [left; congruence | right; eauto].
    + intros (c' & H & K). eauto.
    + intros (c' & [<-|H] & K); [congruence | eauto].
Qed.

Lemma rmapM_coerce_in (raw : RawFrame) (rows : list CoercedRow)
    (c : CoercedRow) :
  rmapM coerce_row raw = Ok rows ->
  (In c rows <-> exists r, In r raw /\ coerce_row r = Ok c).
Proof.
  revert rows; induction raw as [|r raw IH]; intros rows; cbn [rmapM].
  - intros [= <-]. split; [intros [] | intros (r & [] & _)].
  - destruct (coerce_row r) as [c0|e] eqn:E; cbn [rbind]; [|discriminate].
    destruct (rmapM coerce_row raw) as [rs|e]; cbn [rbind]; [|discriminate].
    intros [= <-]. cbn [In]. rewrite (IH rs eq_refl). split.
    + intros [<-|(r' & H & K)]; eauto.
    + intros (r' & [<-|H] & K); [left; congruence | right; eauto].
Qed.

Lemma rmapM_length {A B} (f : A -> result B) (l : list A) (l' : list B) :
  rmapM f l = Ok l' -> List.length l' = List.length l.
Proof.
  revert l'; induction l as [|a l IH]; intros l'; cbn [rmapM].
  - now intros [= <-].
  - destruct (f a); cbn [rbind]; [|discriminate].
    destruct (rmapM f l) as [bs|e]; cbn [rbind]; [|discriminate].
    intros [= <-]. cbn. now rewrite (IH bs eq_refl).
Qed.

(** X4.  The frame the pre-processing returns holds no [NaN] in any
    price or volume cell, is no longer than the provider's frame, and
    its bars are exactly the rows of the provider in which nothing is
    missing. *)
Theorem preprocess_leaves_no_missing_value
    (raw : RawFrame) (df : list Bar) :
  preprocess raw = Ok df ->
  forallb no_missing df = true
  /\ (List.length df <= List.length raw)%nat
  /\ (forall b, In b df <-> exists r, In r raw /\ clean_bar r = Some b).
Proof.
  intro H. apply preprocess_ok in H as (rows & Hrows & ->).
  assert (Hin : forall b, In b (sort_values (dropna rows))
                          <-> In b (dropna rows)).
  { intro b. split; apply Permutation_in;
      [symmetry|]; apply sort_values_perm. }
  split; [|split].
  - apply forallb_forall. intros b Hb. apply Hin, dropna_in in Hb.
    destruct Hb as (c & _ & K). now apply keep_row_no_missing in K.
  - rewrite <- (Permutation_length (sort_values_perm (dropna rows))).
    rewrite <- (rmapM_length _ _ Hrows). apply dropna_length.
  - intro b. rewrite Hin, dropna_in. split.
    + intros (c & Hc & K). apply (rmapM_coerce_in _ c Hrows) in Hc.
      destruct Hc as (r & Hr & E). exists r. split; [assumption|].
      unfold clean_bar. now rewrite E.
    + intros (r & Hr & K). unfold clean_bar in K.
      destruct (coerce_row r) as [c|e] eqn:E; [|discriminate].
      exists c. split; [|assumption].
      apply (rmapM_coerce_in _ c Hrows). eauto.
Qed.

Lemma sort_values_sorted (l : list Bar) :
  StronglySorted Z.le (map date l) -> sort_values l = l.
Proof.
  induction l as [|b l IH]; cbn [map sort_values fold_right]; intro S;
    [reflexivity|].
  inversion S as [|? ? S' F]; subst.
  fold (sort_values l). rewrite (IH S').
  destruct l as [|h t]; [reflexivity|].
  cbn [insert_by_date]. cbn [map] in F.
  inversion F as [|? ? L _]; subst.
  now apply Z.leb_le in L as ->.
Qed.

Lemma clean_rows_coerce (raw : RawFrame) (bars : list Bar) :
  map clean_bar raw = map Some bars ->
  exists rows, rmapM coerce_row raw = Ok rows /\ dropna rows = bars.
Proof.
  revert bars; induction raw as [|r raw IH]; intros [|b bars];
    cbn [map]; try discriminate.
  - intros _. exists []. auto.
  - intros [= Hr Hraw]. destruct (IH _ Hraw) as (rows & E & D).
    unfold clean_bar in Hr.
    destruct (coerce_row r) as [c|e] eqn:Ec; [|discriminate].
    exists (c :: rows). cbn [rmapM]. rewrite Ec, E. cbn [rbind dropna].
    now rewrite Hr, D.
Qed.

Lemma strict_is_sorted (l : list Z) :
  StronglySorted Z.lt l -> StronglySorted Z.le l.
Proof.
  induction 1 as [|z l S IH F]; constructor; [assumption|].
  eapply Forall_impl; [|exact F]. intros; lia.
Qed.

(** X5.  A provider frame in which no cell is missing or unparseable and
    whose dates are strictly increasing comes out of the pre-processing
    as it is: its bars, in the same order. *)
Theorem clean_sorted_frame_passes_through
    (raw : RawFrame) (bars : list Bar) :
  map clean_bar raw = map Some bars ->
  StronglySorted Z.lt (map date bars) ->
  preprocess raw = Ok bars.
Proof.
  intros Hc Hs. destruct (clean_rows_coerce _ _ Hc) as (rows & E & D).
  unfold preprocess. rewrite E. cbn [rbind]. rewrite D.
  now rewrite sort_values_sorted by now apply strict_is_sorted.
Qed.

End NormaliserMore.

(* ================================================================== *)
(** ** Rows of the augmented frame *)
(* ================================================================== *)

Section Rows.

Variable self : StockAnalysisService.

Lemma enumerate_nth_error {A} (l : list A) (k i : nat) :
  nth_error (enumerate k l) i
  = option_map (fun a => ((k + i)%nat, a)) (nth_error l i).
Proof.
  revert k i; induction l as [|a l IH]; intros k [|i]; cbn; auto.
  - now rewrite Nat.add_0_r.
  - rewrite IH. now rewrite Nat.add_succ_r.
Qed.

Lemma ewm_loop_length (alpha : num) (st : ewm_state) (xs : Series) :
  List.length (ewm_loop alpha st xs) = List.length xs.
Proof.
  revert st; induction xs as [|x xs IH]; intro st; cbn; auto.
Qed.

Lemma ewm_mean_length (span : nat) (xs : Series) :
  List.length (ewm_mean span xs) = List.length xs.
Proof.
  unfold ewm_mean. rewrite <- (length_map inf_to_nan xs).
  destruct (map inf_to_nan xs); cbn; [reflexivity|].
  now rewrite ewm_loop_length.
Qed.

Lemma at_column {A} (f : A -> num) (l : list A) (i : nat) (a : A) :
  nth_error l i = Some a -> at_ (map f l) i = f a.
Proof.
  intro H. unfold at_.
  apply nth_error_nth. now rewrite nth_error_map, H.
Qed.

(** Row [i] of the augmented frame carries bar [i] and reads every
    indicator column at position [i]. *)
Lemma calculate_indicators_nth (df : list Bar) (i : nat) (r : Row) :
  nth_error (calculate_indicators self df) i = Some r ->
  nth_error df i = Some (bar r)
  /\ MA5 r = at_ (_calculate_ema (map close df) (ma_short (params self))) i
  /\ MA20 r = at_ (_calculate_ema (map close df) (ma_medium (params self))) i
  /\ MA60 r = at_ (_calculate_ema (map close df) (ma_long (params self))) i
  /\ RSI r = at_ (_calculate_rsi (map close df) (rsi_period (params self))) i
  /\ MACD r = at_ (fst (fst (_calculate_macd (map close df)))) i
  /\ Signal r = at_ (snd (fst (_calculate_macd (map close df)))) i
  /\ MACD_hist r = at_ (snd (_calculate_macd (map close df))) i
  /\ Volume_MA r
     = at_ (rolling_mean (volume_ma_period (params self)) (map volume df)) i
  /\ Volume_Ratio r
     = at_ (zip_with fdiv (map volume df)
              (rolling_mean (volume_ma_period (params self))
                 (map volume df))) i
  /\ ATR r = at_ (_calculate_atr df (atr_period (params self))) i
  /\ Volatility r
     = at_ (map (fun x => x * Fin (qz 100))%num
              (zip_with fdiv (_calculate_atr df (atr_period (params self)))
                 (map close df))) i
  /\ ROC r
     = at_ (map (fun x => x * Fin (qz 100))%num
              (pct_change 10 (map close df))) i.
Proof.
  unfold calculate_indicators, _calculate_macd. cbn [fst snd].
  rewrite nth_error_map, enumerate_nth_error.
  destruct (nth_error df i) as [b|]; cbn [option_map]; [|discriminate].
  intros [= <-]. cbn. repeat split.
Qed.

Lemma true_range_length (df : list Bar) :
  List.length (true_range df) = List.length df.
Proof.
  rewrite true_range_bar_by_bar. generalize NaN.
  induction df as [|b df IH]; intro pc; cbn; auto.
Qed.

Lemma pct_change_length (k : nat) (xs : Series) :
  List.length (pct_change k xs) = List.length xs.
Proof. unfold pct_change. now rewrite length_map, length_seq. Qed.

(** X6.  Adding the indicators leaves the rows where they are: row [i]
    of the augmented frame carries bar [i], and within the row the MACD
    histogram is MACD - Signal, the volume ratio is the bar's volume over
    the volume average, and the volatility is ATR over close times
    100. *)
Theorem indicator_columns_are_aligned (df : list Bar) (i : nat) (r : Row) :
  nth_error (calculate_indicators self df) i = Some r ->
  nth_error df i = Some (bar r)
  /\ MACD_hist r = (MACD r - Signal r)%num
  /\ Volume_Ratio r = (volume (bar r) / Volume_MA r)%num
  /\ Volatility r = (ATR r / close (bar r) * Fin (qz 100))%num.
Proof.
  intro H. apply calculate_indicators_nth in H
    as (Hb & _ & _ & _ & _ & Hm & Hs & Hh & Ha & Hv & Ht & Hy & _).
  assert (Hi : (i < List.length df)%nat).
  { apply nth_error_Some. congruence. }
  split; [exact Hb|]. rewrite Hh, Hm, Hs, Hv, Ha, Hy, Ht.
  unfold _calculate_macd, _calculate_atr. cbn [fst snd].
  repeat split.
  - apply at_zip_with;
      rewrite ?zip_with_length, !ewm_mean_length, ?zip_with_length,
        ?ewm_mean_length, !length_map; lia.
  - rewrite at_zip_with by (rewrite ?rolling_mean_length, length_map; lia).
    now rewrite (at_column volume _ _ Hb).
  - rewrite at_map
      by (rewrite zip_with_length, rolling_mean_length, true_range_length,
            length_map; lia).
    rewrite at_zip_with
      by (rewrite ?rolling_mean_length, ?true_range_length, ?length_map; lia).
    now rewrite (at_column close _ _ Hb).
Qed.

Lemma fdiv_NaN_l (x : num) : (NaN / x)%num = NaN.
Proof. now destruct x. Qed.

Lemma fdiv_NaN_r (x : num) : (x / NaN)%num = NaN.
Proof. now destruct x. Qed.

Lemma shift1_length (xs : Series) :
  List.length (shift1 xs) = List.length xs.
Proof.
  destruct xs as [|x xs]; [reflexivity|].
  unfold shift1. cbn [List.length].
  rewrite removelast_firstn_len, length_firstn. cbn [List.length]. lia.
Qed.

Lemma diff_length (xs : Series) : List.length (diff xs) = List.length xs.
Proof.
  unfold diff. rewrite zip_with_length, shift1_length. lia.
Qed.

Lemma rsi_length (xs : Series) (period : nat) :
  List.length (_calculate_rsi xs period) = List.length xs.
Proof.
  unfold _calculate_rsi, where_.
  rewrite length_map, zip_with_length, !rolling_mean_length, !length_map,
    diff_length. lia.
Qed.

(** While the window is short the average gain is undefined, and the
    RSI with it. *)
Lemma rsi_warm_up (xs : Series) (period i : nat) :
  (i + 1 < period)%nat -> at_ (_calculate_rsi xs period) i = NaN.
Proof.
  intro Hw. destruct (Nat.lt_ge_cases i (List.length xs)) as [Hi|Hi].
  - unfold _calculate_rsi, where_.
    rewrite at_map
      by (rewrite zip_with_length, !rolling_mean_length, !length_map,
            diff_length; lia).
    rewrite at_zip_with
      by (rewrite rolling_mean_length, !length_map, diff_length; lia).
    rewrite !rolling_mean_warm_up by assumption. reflexivity.
  - unfold at_. apply nth_overflow. now rewrite rsi_length.
Qed.

Lemma pct_change_warm_up (k : nat) (xs : Series) (i : nat) :
  (i < k)%nat -> at_ (pct_change k xs) i = NaN.
Proof.
  intro Hk. destruct (Nat.lt_ge_cases i (List.length xs)) as [Hi|Hi].
  - unfold pct_change. rewrite at_map_seq by assumption.
    now apply Nat.ltb_lt in Hk as ->.
  - unfold at_. apply nth_overflow. now rewrite pct_change_length.
Qed.

(** X7.  The warm-up of the rolling indicators: in row [i] the volume
    average and the volume ratio are undefined while fewer than
    [volume_ma_period] bars are available, the ATR and the volatility
    while fewer than [atr_period] are, the RSI while fewer than
    [rsi_period] are, and the rate of change in the first ten rows. *)
Theorem rolling_indicators_warm_up (df : list Bar) (i : nat) (r : Row) :
  nth_error (calculate_indicators self df) i = Some r ->
  ((i + 1 < volume_ma_period (params self))%nat ->
   Volume_MA r = NaN /\ Volume_Ratio r = NaN)
  /\ ((i + 1 < atr_period (params self))%nat ->
      ATR r = NaN /\ Volatility r = NaN)
  /\ ((i + 1 < rsi_period (params self))%nat -> RSI r = NaN)
  /\ ((i < 10)%nat -> ROC r = NaN).
Proof.
  intro H.
  apply calculate_indicators_nth in H
    as (Hb & _ & _ & _ & Hr & _ & _ & _ & Ha & Hv & Ht & Hy & Hc).
  assert (Hi : (i < List.length df)%nat).
  { apply nth_error_Some. congruence. }
  split; [|split; [|split]].
  - intro Hw. split.
    + rewrite Ha. now apply rolling_mean_warm_up.
    + rewrite Hv.
      rewrite at_zip_with by (rewrite ?rolling_mean_length, length_map; lia).
      rewrite rolling_mean_warm_up by assumption. apply fdiv_NaN_r.
  - intro Hw. split.
    + rewrite Ht. now apply rolling_mean_warm_up.
    + rewrite Hy. unfold _calculate_atr.
      rewrite at_map
        by (rewrite zip_with_length, rolling_mean_length, true_range_length,
              length_map; lia).
      rewrite at_zip_with
        by (rewrite ?rolling_mean_length, ?true_range_length, ?length_map;
            lia).
      rewrite rolling_mean_warm_up by assumption. now rewrite fdiv_NaN_l.
  - intro Hw. rewrite Hr. now apply rsi_warm_up.
  - intro Hw. rewrite Hc.
    rewrite at_map by (rewrite pct_change_length, length_map; lia).
    now rewrite pct_change_warm_up.
Qed.

End Rows.

(* ================================================================== *)
(** ** More on the orchestrator *)
(* ================================================================== *)

Section OrchestratorMore.

Variable self : StockAnalysisService.
Variable env : Env.

(** The report of a frame whose last two rows are [prev] and [latest]. *)
Lemma analyze_stock_succeeds
    (request : StockDataRequest) (df : list Bar) (tr : list call)
    (pre : list Row) (prev latest : Row) :
  run (get_stock_data self request) env = (Ok df, tr) ->
  calculate_indicators self df = pre ++ [prev; latest] ->
  run (analyze_stock self request) env
  = (Ok {| res_stock_code := stock_code request;
           res_market_type := market_type request;
           analysis_date := now_iso env;
           score := of_Z (rubric latest);
           price := close (bar latest);
           price_change :=
             ((close (bar latest) - close (bar prev)) / close (bar prev)
              * Fin (qz 100))%num;
           ma_trend :=
             if (MA5 latest >? MA20 latest)%num
             then "UP"%string else "DOWN"%string;
           rsi := if negb (isna (RSI latest)) then Some (RSI latest) else None;
           macd_signal :=
             if (MACD latest >? Signal latest)%num
             then "BUY"%string else "SELL"%string;
           volume_status :=
             if (Volume_Ratio latest >? Fin (Q2Qc (3 # 2)))%num
             then "HIGH"%string else "NORMAL"%string;
           recommendation := _get_recommendation (of_Z (rubric latest)) |},
     tr).
Proof.
  intros H E. rewrite (analyze_stock_after_fetch _ _ _ H), E.
  replace (pre ++ [prev; latest]) with ((pre ++ [prev]) ++ [latest])
    by now rewrite <- app_assoc.
  rewrite calculate_score_last, iloc_last. cbn [rbind].
  rewrite <- app_assoc. cbn [app]. now rewrite iloc_last_but_one.
Qed.

(** X9.  In the report of a successful analysis the score is the rubric
    of the last row, the recommendation is the label of that score, the
    price is the last close, the RSI is left out exactly when it is
    undefined, and the code, the market type and today's date are those
    of the request and the clock. *)
Theorem analysis_report_is_consistent
    (request : StockDataRequest) (df : list Bar) (tr : list call) :
  run (get_stock_data self request) env = (Ok df, tr) ->
  (2 <= List.length df)%nat ->
  exists report pre latest,
    run (analyze_stock self request) env = (Ok report, tr)
    /\ calculate_indicators self df = pre ++ [latest]
    /\ score report = of_Z (rubric latest)
    /\ recommendation report = _get_recommendation (score report)
    /\ price report = close (bar latest)
    /\ rsi report = (if isna (RSI latest) then None else Some (RSI latest))
    /\ res_stock_code report = stock_code request
    /\ res_market_type report = market_type request
    /\ analysis_date report = now_iso env.
Proof.
  intros H L.
  destruct (@split_last_two _ (calculate_indicators self df))
    as (pre & prev & latest & E).
  { now rewrite calculate_indicators_length. }
  eexists. exists (pre ++ [prev]), latest.
  split; [exact (@analyze_stock_succeeds request df tr pre prev latest H E)|].
  split; [now rewrite E, <- app_assoc|].
  cbn. repeat split. now destruct (isna (RSI latest)).
Qed.

Lemma last_row_position (df : list Bar) (pre : list Row) (prev latest : Row) :
  calculate_indicators self df = pre ++ [prev; latest] ->
  nth_error (calculate_indicators self df) (List.length df - 1) = Some latest.
Proof.
  intro E. pose proof (calculate_indicators_length self df) as L.
  rewrite E in *. rewrite length_app in L. cbn [List.length] in L.
  rewrite nth_error_app2 by lia.
  replace (List.length df - 1 - List.length pre)%nat with 1%nat by lia.
  reflexivity.
Qed.

(** X10.  A history shorter than the volume window cannot be rated
    "strongly buy", and one that is also shorter than the RSI window is
    rated "hold" at best: the volume bucket, and then the RSI bucket,
    stay empty. *)
Theorem short_history_is_never_a_strong_buy
    (request : StockDataRequest) (df : list Bar) (tr : list call) :
  run (get_stock_data self request) env = (Ok df, tr) ->
  (2 <= List.length df)%nat ->
  (List.length df < volume_ma_period (params self))%nat ->
  exists report,
    run (analyze_stock self request) env = (Ok report, tr)
    /\ recommendation report <> strongly_buy
    /\ ((List.length df < rsi_period (params self))%nat ->
        In (recommendation report) [hold; sell; strongly_sell]).
Proof.
  intros H L Hv.
  destruct (@split_last_two _ (calculate_indicators self df))
    as (pre & prev & latest & E).
  { now rewrite calculate_indicators_length. }
  eexists. split; [exact (@analyze_stock_succeeds request df tr pre prev latest H E)|].
  cbn [recommendation].
  pose proof (@last_row_position df pre prev latest E) as P.
  apply calculate_indicators_nth in P
    as (_ & _ & _ & _ & Hr & _ & _ & _ & _ & Hq & _).
  assert (Q : Volume_Ratio latest = NaN).
  { rewrite Hq.
    rewrite at_zip_with by (rewrite ?rolling_mean_length, length_map; lia).
    rewrite rolling_mean_warm_up by lia. apply fdiv_NaN_r. }
  unfold rubric. rewrite Q.
  unfold trend_points, macd_points.
  change (volume_points NaN) with 0%Z.
  split.
  - pose proof (rsi_points_range (RSI latest)) as R. cbn [In] in R.
    destruct (MA5 latest >? MA20 latest)%num,
      (MA20 latest >? MA60 latest)%num,
      (MACD latest >? Signal latest)%num;
      destruct R as [<-|[<-|[<-|[]]]]; vm_compute; discriminate.
  - intro Hs. assert (R : RSI latest = NaN).
    { rewrite Hr. apply rsi_warm_up. lia. }
    rewrite R. change (rsi_points NaN) with 0%Z.
    destruct (MA5 latest >? MA20 latest)%num,
      (MA20 latest >? MA60 latest)%num,
      (MACD latest >? Signal latest)%num; vm_compute; tauto.
Qed.

(** X11.  What the provider or the pre-processing raises leaves
    [analyze_stock] unchanged, after the one provider call and with no
    report: the exception of a failing provider call, or the
    [ValueError] of a date cell that cannot be parsed. *)
Theorem analyze_stock_propagates_fetch_errors
    (request : StockDataRequest) (c : call) :
  snd (run (get_stock_data self request) env) = [c] ->
  (forall e, ak env c = Raise e ->
     run (analyze_stock self request) env = (Raise e, [c]))
  /\ (forall raw,
        ak env c = Ok raw -> existsb bad_date raw = true ->
        exists msg,
          run (analyze_stock self request) env
          = (Raise (ValueError msg), [c])).
Proof.
  intro T. assert (S : select_call request env = Ok c).
  { rewrite get_stock_data_run in T.
    destruct (select_call request env); cbn [snd] in T; congruence. }
  split.
  - intros e He. apply analyze_stock_fetch_failed.
    rewrite get_stock_data_run, S, He. reflexivity.
  - intros raw Hr Hb. apply rmapM_coerce_raises in Hb as [msg Hb].
    exists msg. apply analyze_stock_fetch_failed.
    rewrite get_stock_data_run, S, Hr. cbn [rbind]. unfold preprocess.
    now rewrite Hb.
Qed.

End OrchestratorMore.

(* ================================================================== *)
(** ** More on the endpoint and the recommendation *)
(* ================================================================== *)

Section EndpointMore.

Local Open Scope string_scope.



End EndpointMore.

Section RecommendationMore.

Local Open Scope Qc_scope.

Lemma recommendation_rank (s : Qc) :
  (qz 80 <= s /\ label_rank (_get_recommendation (Fin s)) = 4%nat)
  \/ (s < qz 80 /\ qz 60 <= s
      /\ label_rank (_get_recommendation (Fin s)) = 3%nat)
  \/ (s < qz 60 /\ qz 40 <= s
      /\ label_rank (_get_recommendation (Fin s)) = 2%nat)
  \/ (s < qz 40 /\ qz 20 <= s
      /\ label_rank (_get_recommendation (Fin s)) = 1%nat)
  \/ (s < qz 20 /\ label_rank (_get_recommendation (Fin s)) = 0%nat).
Proof.
  unfold _get_recommendation.
  destruct (Qclt_le_dec s (qz 80)) as [H8|H8];
    [rewrite (fge_Fin_false H8)
    |rewrite (fge_Fin_true H8); left; split; [assumption|reflexivity]].
  destruct (Qclt_le_dec s (qz 60)) as [H6|H6];
    [rewrite (fge_Fin_false H6)
    |rewrite (fge_Fin_true H6); right; left; repeat split; auto].
  destruct (Qclt_le_dec s (qz 40)) as [H4|H4];
    [rewrite (fge_Fin_false H4)
    |rewrite (fge_Fin_true H4); right; right; left; repeat split; auto].
  destruct (Qclt_le_dec s (qz 20)) as [H2|H2];
    [rewrite (fge_Fin_false H2)
    |rewrite (fge_Fin_true H2); right; right; right; left;
     repeat split; auto].
  right; right; right; right. split; auto.
Qed.

(** X12.  The recommendation never gets worse when the score grows: on
    the scale strongly sell < sell < hold < buy < strongly buy, a score
    at least as high gets a label at least as high, infinite scores
    included. *)
Theorem recommendation_is_monotone (s1 s2 : num) :
  fle s1 s2 = true ->
  (label_rank (_get_recommendation s1)
   <= label_rank (_get_recommendation s2))%nat.
Proof.
  destruct s1 as [| | |a], s2 as [| | |b]; try discriminate;
    try (intros _; vm_compute; lia).
  - intros _.
    change (label_rank (_get_recommendation PInf)) with 4%nat.
    destruct (recommendation_rank a)
      as [[_ ->]|[(_ & _ & ->)|[(_ & _ & ->)|[(_ & _ & ->)|[_ ->]]]]]; lia.
  - intro H. apply fle_Fin in H.
    destruct (recommendation_rank a)
      as [[A1 ->]|[(A1 & A2 & ->)|[(A1 & A2 & ->)|[(A1 & A2 & ->)|[A1 ->]]]]],
      (recommendation_rank b)
      as [[B1 ->]|[(B1 & B2 & ->)|[(B1 & B2 & ->)|[(B1 & B2 & ->)|[B1 ->]]]]];
      try lia; exfalso; unfold Qcle, Qclt in *; cbn in *; lra.
Qed.

End RecommendationMore.

(* ================================================================== *)
(** ** Order on rationals *)
(* ================================================================== *)

Ltac qc_to_q :=
  unfold Qcle, Qclt, Qcdiv, Qcminus in *;
  cbn [this Qcplus Qcmult Qcopp Qcinv Q2Qc] in *;
  rewrite ?Qred_correct in *.

Section RationalOrder.

Local Open Scope Qc_scope.

Lemma qdiv_nonneg (a b : Qc) : Q2Qc 0 <= a -> Q2Qc 0 < b -> Q2Qc 0 <= a / b.
Proof.
  intros Ha Hb. qc_to_q.
  apply Qmult_le_0_compat; [assumption|].
  now apply Qlt_le_weak, Qinv_lt_0_compat.
Qed.

Lemma rsi_value_range (t : Qc) :
  Q2Qc 0 <= t ->
  Q2Qc 0 <= qz 100 - qz 100 / (qz 1 + t)
  /\ qz 100 - qz 100 / (qz 1 + t) <= qz 100.
Proof.
  intro H. unfold qz. qc_to_q.
  change (inject_Z 100) with 100%Q. change (inject_Z 1) with 1%Q.
  assert (A : (0 <= 100 * / (1 + t))%Q).
  { apply Qle_shift_div_l; lra. }
  assert (B : (100 * / (1 + t) <= 100)%Q).
  { apply Qle_shift_div_r; lra. }
  set (u := (100 * / (1 + t))%Q) in *. lra.
Qed.

Lemma qn_positive (n : nat) : Q2Qc 0 < qn (S n).
Proof.
  unfold qn, qz. qc_to_q. change 0%Q with (inject_Z 0).
  rewrite <- Zlt_Qlt. lia.
Qed.

Lemma qsum_nonneg (l : list Qc) :
  Forall (fun x => Q2Qc 0 <= x) l -> Q2Qc 0 <= qsum l.
Proof.
  induction 1 as [|x l Hx _ IH].
  - apply Qcle_refl.
  - unfold qsum in *. cbn [fold_left]. rewrite qsum_acc.
    unfold qsum. qc_to_q. lra.
Qed.

Lemma Forall_window {A} (P : A -> Prop) (k n : nat) (l : list A) :
  Forall P l -> Forall P (firstn n (skipn k l)).
Proof.
  intro F.
  assert (S : Forall P (skipn k l)).
  { revert l F; induction k as [|k IH]; intros [|a l] F; cbn; auto.
    apply IH. now inversion F. }
  revert S. generalize (skipn k l). clear.
  induction n as [|n IH]; intros [|a l] F; cbn; auto.
  inversion F; subst. constructor; auto.
Qed.

Lemma spec_rolling_mean_nonneg (period : nat) (xs : list Qc) (t : nat) :
  Forall (fun x => Q2Qc 0 <= x) xs ->
  Q2Qc 0 <= spec_rolling_mean (S period) xs t.
Proof.
  intro F. unfold spec_rolling_mean.
  apply qdiv_nonneg; [|apply qn_positive].
  apply qsum_nonneg. now apply Forall_window.
Qed.

End RationalOrder.

(* ================================================================== *)
(** ** ATR and RSI on finite series *)
(* ================================================================== *)

Section AtrRsi.

Local Open Scope Qc_scope.

Lemma rolling_mean_zero_window (xs : Series) (i : nat) :
  at_ (rolling_mean 0 xs) i = NaN.
Proof.
  destruct (Nat.lt_ge_cases i (List.length xs)) as [Hi|Hi].
  - unfold rolling_mean. rewrite at_map_seq by assumption.
    unfold window_at.
    replace (i + 1 - (i + 1 - 0))%nat with 0%nat by lia. reflexivity.
  - unfold at_. apply nth_overflow. now rewrite rolling_mean_length.
Qed.

(** The rolling mean of finite values, at any position. *)
Lemma rolling_mean_finite (period : nat) (xs : list Qc) (i : nat) :
  (i < List.length xs)%nat ->
  at_ (rolling_mean period (map Fin xs)) i
  = if ((period =? 0) || (i + 1 <? period))%nat then NaN
    else Fin (spec_rolling_mean period xs i).
Proof.
  intro Hi. destruct period as [|p]; [apply rolling_mean_zero_window|].
  cbn [Nat.eqb orb].
  destruct (Nat.ltb_spec (i + 1) (S p)) as [Hw|Hw].
  - now apply rolling_mean_warm_up.
  - apply rolling_mean_full; lia.
Qed.

Lemma spec_tr_nonneg (pc h l : Qc) : Q2Qc 0 <= spec_tr pc h l.
Proof.
  unfold spec_tr.
  destruct (qmax_upper (qmax (h - l) (qabs (h - pc))) (qabs (l - pc)))
    as (_ & U & _).
  destruct (qabs_spec (l - pc)) as [A _].
  eapply Qcle_trans; eassumption.
Qed.

Lemma spec_tr_from_nonneg (pc : Qc) (df : list Bar) :
  Forall (fun x => Q2Qc 0 <= x) (spec_tr_from pc df).
Proof.
  revert pc; induction df as [|b df IH]; intro pc; cbn [spec_tr_from];
    constructor; [apply spec_tr_nonneg | apply IH].
Qed.

(** X14.  On finite bars whose low does not exceed their high, the
    average true range is never negative: at every bar it is undefined
    or a number that is at least zero. *)
Theorem atr_is_never_negative (df : list Bar) (period i : nat) :
  forallb finite_bar df = true ->
  forallb (fun b => fle (low b) (high b)) df = true ->
  at_ (_calculate_atr df period) i = NaN
  \/ exists q, at_ (_calculate_atr df period) i = Fin q /\ Q2Qc 0 <= q.
Proof.
  intros F O. unfold _calculate_atr. rewrite (true_range_finite _ F).
  destruct (Nat.lt_ge_cases i (List.length df)) as [Hi|Hi].
  2:{ left. unfold at_. apply nth_overflow.
      now rewrite rolling_mean_length, length_map, spec_true_range_length. }
  rewrite rolling_mean_finite by now rewrite spec_true_range_length.
  destruct period as [|p]; [now left|]. cbn [Nat.eqb orb].
  destruct (i + 1 <? S p)%nat; [now left|]. right.
  eexists. split; [reflexivity|].
  apply spec_rolling_mean_nonneg.
  destruct df as [|b df]; [constructor|]. cbn [spec_true_range].
  constructor; [|apply spec_tr_from_nonneg].
  cbn [forallb] in F, O.
  apply andb_prop in F as [Fb _]. apply andb_prop in O as [Ob _].
  destruct (finite_bar_inv _ Fb) as (Hh & Hl & _).
  rewrite Hh, Hl in Ob. apply fle_Fin in Ob.
  qc_to_q. lra.
Qed.

Lemma diff_tail_finite (p : Qc) (r : list Qc) :
  zip_with fsub (map Fin r) (removelast (Fin p :: map Fin r))
  = map Fin (qdeltas_from p r).
Proof.
  revert p; induction r as [|x r IH]; intro p; [reflexivity|].
  cbn [map]. change (removelast (Fin p :: Fin x :: map Fin r))
    with (Fin p :: removelast (Fin x :: map Fin r)).
  cbn [zip_with qdeltas_from map]. now rewrite IH.
Qed.

Lemma diff_finite (x0 : Qc) (r : list Qc) :
  diff (map Fin (x0 :: r)) = NaN :: map Fin (qdeltas_from x0 r).
Proof.
  unfold diff, shift1. cbn [map zip_with]. f_equal. apply diff_tail_finite.
Qed.

Lemma gains_finite (ds : list Qc) :
  where_ (fun d => d >? Fin (qz 0))%num (Fin (qz 0)) (NaN :: map Fin ds)
  = map Fin (Q2Qc 0 :: map qgain ds).
Proof.
  unfold where_. cbn [map]. f_equal. rewrite !map_map.
  apply map_ext. intro d. unfold fgt, flt, qgain. cbn [fcmp].
  change (qz 0) with (Q2Qc 0). now destruct (Q2Qc 0 ?= d).
Qed.

Lemma losses_finite (ds : list Qc) :
  map fneg
    (where_ (fun d => d <? Fin (qz 0))%num (Fin (qz 0)) (NaN :: map Fin ds))
  = map Fin ((- Q2Qc 0) :: map qloss ds).
Proof.
  unfold where_. cbn [map]. f_equal. rewrite !map_map.
  apply map_ext. intro d. unfold flt, qloss. cbn [fcmp].
  change (qz 0) with (Q2Qc 0). now destruct (d ?= Q2Qc 0).
Qed.

Lemma qgain_nonneg (d : Qc) : Q2Qc 0 <= qgain d.
Proof.
  unfold qgain. destruct (Q2Qc 0 ?= d) eqn:E; try apply Qcle_refl.
  now apply Qclt_le_weak, Qclt_alt.
Qed.

Lemma qloss_nonneg (d : Qc) : Q2Qc 0 <= qloss d.
Proof.
  unfold qloss. destruct (d ?= Q2Qc 0) eqn:E.
  - qc_to_q. lra.
  - apply Qclt_alt in E. qc_to_q. lra.
  - qc_to_q. lra.
Qed.

Lemma spec_gains_nonneg (xs : list Qc) :
  Forall (fun x => Q2Qc 0 <= x) (spec_gains xs).
Proof.
  destruct xs as [|x0 r]; cbn [spec_gains]; constructor;
    [apply Qcle_refl|].
  apply Forall_forall. intros g Hg. apply in_map_iff in Hg as (d & <- & _).
  apply qgain_nonneg.
Qed.

Lemma spec_losses_nonneg (xs : list Qc) :
  Forall (fun x => Q2Qc 0 <= x) (spec_losses xs).
Proof.
  destruct xs as [|x0 r]; cbn [spec_losses]; constructor.
  - qc_to_q. lra.
  - apply Forall_forall. intros g Hg.
    apply in_map_iff in Hg as (d & <- & _). apply qloss_nonneg.
Qed.

Lemma qdeltas_from_length (p : Qc) (r : list Qc) :
  List.length (qdeltas_from p r) = List.length r.
Proof. revert p; induction r; intro p; cbn; auto. Qed.

Lemma spec_gains_length (xs : list Qc) :
  List.length (spec_gains xs) = List.length xs.
Proof.
  destruct xs; cbn; [reflexivity|].
  now rewrite length_map, qdeltas_from_length.
Qed.

Lemma spec_losses_length (xs : list Qc) :
  List.length (spec_losses xs) = List.length xs.
Proof.
  destruct xs; cbn; [reflexivity|].
  now rewrite length_map, qdeltas_from_length.
Qed.

Lemma qcompare_nonneg (q : Qc) : Q2Qc 0 <= q -> (q ?= Q2Qc 0) <> Lt.
Proof.
  intros H E. apply Qclt_alt in E. exact (Qcle_not_lt _ _ H E).
Qed.

(** X15.  On finite closes the RSI is the textbook quantity: undefined
    during the warm-up and on a window without any move, 100 on a window
    with gains only, and 100 - 100 / (1 + average gain / average loss)
    otherwise; when defined it lies between 0 and 100. *)
Theorem rsi_formula_and_range (period : nat) (xs : list Qc) (i : nat) :
  (i < List.length xs)%nat ->
  at_ (_calculate_rsi (map Fin xs) period) i
  = num_of_option (spec_rsi period xs i)
  /\ (forall q, spec_rsi period xs i = Some q ->
        Q2Qc 0 <= q /\ q <= qz 100).
Proof.
  intro Hi. destruct xs as [|x0 r]; [cbn in Hi; lia|].
  pose proof (spec_gains_length (x0 :: r)) as LG.
  pose proof (spec_losses_length (x0 :: r)) as LL.
  assert (E : at_ (_calculate_rsi (map Fin (x0 :: r)) period) i
              = ((fun rs => Fin (qz 100)
                            - (Fin (qz 100) / (Fin (qz 1) + rs)))%num
                   (at_ (rolling_mean period
                           (map Fin (spec_gains (x0 :: r)))) i
                    / at_ (rolling_mean period
                             (map Fin (spec_losses (x0 :: r)))) i)%num)).
  { unfold _calculate_rsi. rewrite diff_finite, gains_finite, losses_finite.
    change (Q2Qc 0 :: map qgain (qdeltas_from x0 r))
      with (spec_gains (x0 :: r)).
    change ((- Q2Qc 0) :: map qloss (qdeltas_from x0 r))
      with (spec_losses (x0 :: r)).
    rewrite at_map
      by (rewrite zip_with_length, !rolling_mean_length, !length_map; lia).
    rewrite at_zip_with
      by (rewrite rolling_mean_length, length_map; lia).
    reflexivity. }
  rewrite E. clear E.
  rewrite !rolling_mean_finite by lia.
  unfold spec_rsi.
  destruct ((period =? 0) || (i + 1 <? period))%nat eqn:W.
  { split; [reflexivity|discriminate]. }
  destruct period as [|p]; [discriminate W|].
  pose proof (spec_rolling_mean_nonneg p i (spec_gains_nonneg (x0 :: r)))
    as G0.
  pose proof (spec_rolling_mean_nonneg p i (spec_losses_nonneg (x0 :: r)))
    as L0.
  set (g := spec_rolling_mean (S p) (spec_gains (x0 :: r)) i) in *.
  set (l := spec_rolling_mean (S p) (spec_losses (x0 :: r)) i) in *.
  cbv beta.
  destruct (l ?= Q2Qc 0) eqn:EL.
  - unfold fdiv at 2. unfold qsgn. rewrite EL.
    destruct (g ?= Q2Qc 0) eqn:EG.
    + split; [reflexivity|discriminate].
    + exfalso. exact (qcompare_nonneg G0 EG).
    + split.
      * cbn. now f_equal.
      * intros q [= <-]. split; [discriminate|apply Qcle_refl].
  - exfalso. exact (qcompare_nonneg L0 EL).
  - assert (Lp : Q2Qc 0 < l) by now apply Qcgt_alt.
    assert (Ln : l <> Q2Qc 0).
    { intros ->. exact (Qclt_not_eq _ _ Lp eq_refl). }
    pose proof (qdiv_nonneg G0 Lp) as T.
    rewrite (fdiv_Fin_nonzero g Ln). cbn [fadd].
    assert (Dn : qz 1 + g / l <> Q2Qc 0).
    { intro D.
      assert (X : qz 1 + g / l <= Q2Qc 0) by (rewrite D; apply Qcle_refl).
      clear D. set (u := g / l) in *. unfold qz in X. qc_to_q.
      change (inject_Z 1) with 1%Q in X. lra. }
    rewrite (fdiv_Fin_nonzero (qz 100) Dn).
    split; [reflexivity|].
    intros q [= <-]. apply rsi_value_range. exact T.
Qed.

End AtrRsi.

(* ================================================================== *)
(** ** Steady volume *)
(* ================================================================== *)

Section Trends.

Local Open Scope Qc_scope.

Variable self : StockAnalysisService.
Variable env : Env.

(** X17.  When every bar of the fetched history has the same finite
    volume, the volume ratio of every row is 1 or undefined, so the
    report says the volume is NORMAL and the volume bucket scores
    nothing. *)
Theorem steady_volume_is_normal
    (request : StockDataRequest) (df : list Bar) (tr : list call) (v : Qc) :
  run (get_stock_data self request) env = (Ok df, tr) ->
  (2 <= List.length df)%nat ->
  Forall (fun b => volume b = Fin v) df ->
  Forall (fun r => Volume_Ratio r = NaN \/ Volume_Ratio r = Fin (Q2Qc 1))
    (calculate_indicators self df)
  /\ exists report latest pre,
       run (analyze_stock self request) env = (Ok report, tr)
       /\ calculate_indicators self df = pre ++ [latest]
       /\ volume_status report = "NORMAL"%string
       /\ volume_points (Volume_Ratio latest) = 0%Z.
Proof.
  intros H L Hv.
  assert (R : Forall (fun r => Volume_Ratio r = NaN
                               \/ Volume_Ratio r = Fin (Q2Qc 1))
                (calculate_indicators self df)).
  { apply Forall_forall. intros r Hr.
    apply calculate_indicators_rows in Hr
      as (i & Hi & _ & _ & _ & _ & _ & _ & Hq).
    rewrite (flat_column volume Hv) in Hq. rewrite Hq.
    rewrite at_zip_with
      by (rewrite ?rolling_mean_length, repeat_length; lia).
    rewrite at_repeat by assumption.
    destruct (rolling_mean_constant (volume_ma_period (params self)) v Hi)
      as [-> | ->]; [now left|].
    unfold fdiv. destruct (qsgn v) eqn:Ev.
    - apply qsgn_Eq in Ev. subst v. now left.
    - right. f_equal. field. intros ->. discriminate Ev.
    - right. f_equal. field. intros ->. discriminate Ev. }
  split; [exact R|].
  destruct (@split_last_two _ (calculate_indicators self df))
    as (pre & prev & latest & E).
  { now rewrite calculate_indicators_length. }
  eexists. exists latest, (pre ++ [prev]).
  split; [exact (@analyze_stock_succeeds self env request df tr pre prev
                   latest H E)|].
  split; [now rewrite E, <- app_assoc|].
  rewrite Forall_forall in R.
  assert (Q : Volume_Ratio latest = NaN
              \/ Volume_Ratio latest = Fin (Q2Qc 1)).
  { apply R. rewrite E. apply in_or_app. right. cbn. auto. }
  cbn [volume_status]. unfold volume_points.
  destruct Q as [-> | ->]; split; reflexivity.
Qed.

End Trends.

(* ================================================================== *)
(** ** Rate of change *)
(* ================================================================== *)

Section RateOfChange.

Variable self : StockAnalysisService.

Local Open Scope Qc_scope.

(** X18.  From the eleventh row on, the rate of change of a row with
    finite close [c] whose tenth predecessor closed at the finite [c0]
    is (c - c0) / c0 * 100 when [c0] is not zero; when [c0] is zero it
    is an infinity or undefined, and nothing is raised. *)
Theorem rate_of_change_formula
    (df : list Bar) (i : nat) (r : Row) (b0 : Bar) (c c0 : Qc) :
  nth_error (calculate_indicators self df) i = Some r ->
  nth_error df (i - 10) = Some b0 ->
  (10 <= i)%nat ->
  close (bar r) = Fin c -> close b0 = Fin c0 ->
  (c0 <> Q2Qc 0 -> ROC r = Fin ((c - c0) / c0 * qz 100))
  /\ (c0 = Q2Qc 0 -> is_fin (ROC r) = false).
Proof.
  intros H H0 Hi Hc Hc0.
  apply calculate_indicators_nth in H as (Hb & H').
  assert (HR : ROC r = at_ (map (fun x => x * Fin (qz 100))%num
                              (pct_change 10 (map close df))) i)
    by apply H'.
  clear H'.
  assert (Hl : (i < List.length df)%nat).
  { apply nth_error_Some. congruence. }
  rewrite at_map in HR by (rewrite pct_change_length, length_map; lia).
  unfold pct_change in HR.
  rewrite at_map_seq in HR by (rewrite length_map; lia).
  replace (i <? 10)%nat with false in HR
    by (symmetry; apply Nat.ltb_ge; lia).
  rewrite (at_column close _ _ Hb), (at_column close _ _ H0) in HR.
  rewrite Hc, Hc0 in HR. rewrite HR. split.
  - intro Hn. rewrite fdiv_Fin_nonzero by assumption.
    cbn [fsub fneg fadd fmul]. f_equal.
    change (qz 1) with (Q2Qc 1). field. assumption.
  - intros ->. unfold fdiv. change (qsgn (Q2Qc 0)) with Eq.
    destruct (qsgn c); reflexivity.
Qed.

End RateOfChange.

(* ================================================================== *)
(** ** The news crawler *)
(* ================================================================== *)

Section News.

Import NewsCrawler.

Local Open Scope string_scope.

Lemma split_nonempty (sep : ascii) (s : string) :
  (1 <= List.length (split sep s))%nat.
Proof.
  induction s as [|c s IH]; cbn [split]; [cbn; lia|].
  destruct (Ascii.eqb c sep); [cbn; lia|].
  destruct (split sep s); cbn in *; lia.
Qed.

Lemma split_length_cons (sep c : ascii) (s : string) :
  List.length (split sep (String c s))
  = if Ascii.eqb c sep then S (List.length (split sep s))
    else List.length (split sep s).
Proof.
  cbn [split]. pose proof (split_nonempty sep s) as N.
  destruct (Ascii.eqb c sep); [reflexivity|].
  destruct (split sep s); cbn in *; [lia|reflexivity].
Qed.

Lemma split_length_mono (sep c : ascii) (s : string) :
  (List.length (split sep s) <= List.length (split sep (String c s)))%nat.
Proof.
  rewrite split_length_cons. destruct (Ascii.eqb c sep); lia.
Qed.

Lemma news_prefix_has_two_slashes (s : string) :
  String.prefix "/news/" s = true ->
  (2 < List.length (split "/" s))%nat.
Proof.
  intro H.
  do 6 (destruct s as [|? s]; [discriminate H|];
        cbn [String.prefix] in H;
        match type of H with
        | (if ?d then _ else _) = true =>
            destruct d as [<-|]; [|discriminate H]
        end).
  rewrite split_length_cons. cbn [Ascii.eqb Bool.eqb].
  do 4 (rewrite split_length_cons; cbn [Ascii.eqb Bool.eqb]).
  rewrite split_length_cons. cbn [Ascii.eqb Bool.eqb].
  pose proof (split_nonempty "/" s). lia.
Qed.

Lemma news_link_has_two_slashes (s : string) :
  contains "/news/" s = true -> (2 < List.length (split "/" s))%nat.
Proof.
  induction s as [|c s IH]; cbn [contains]; intro H.
  - rewrite orb_false_r in H. now apply news_prefix_has_two_slashes.
  - apply orb_prop in H as [H|H].
    + now apply news_prefix_has_two_slashes.
    + pose proof (split_length_mono "/" c s). specialize (IH H). lia.
Qed.

(** X19.  The crawler keeps a link exactly when it contains "/news/":
    the test on the number of "/"-separated parts never rejects such a
    link.  The URLs returned are the kept links, in page order and with
    repetitions, each behind the site prefix; a failure to load the
    listing is passed on. *)
Theorem news_urls_are_the_links_with_a_news_segment (w : World) :
  (forall link, is_news_link link = contains "/news/" link)
  /\ get_news_urls w
     = rbind (listing w) (fun hrefs =>
         Ok (map (fun link => site ++ link)
               (filter (contains "/news/") hrefs))).
Proof.
  assert (E : forall link, is_news_link link = contains "/news/" link).
  { intro link. unfold is_news_link.
    destruct (contains "/news/" link) eqn:C; [|reflexivity].
    cbn [andb]. apply Nat.ltb_lt. now apply news_link_has_two_slashes. }
  split; [exact E|].
  unfold get_news_urls. destruct (listing w); cbn [rbind]; [|reflexivity].
  do 2 f_equal. apply filter_ext. exact E.
Qed.

Lemma rmapM_all_ok {A B} (f : A -> result B) (l : list A) :
  Forall (fun a => exists b, f a = Ok b) l ->
  exists bs, rmapM f l = Ok bs.
Proof.
  induction 1 as [|a l [b Hb] _ [bs IH]]; cbn [rmapM]; [eauto|].
  rewrite Hb, IH. cbn. eauto.
Qed.

Lemma rmapM_first_error {A B} (f : A -> result B)
    (pre post : list A) (a : A) (e : exn) :
  Forall (fun a => exists b, f a = Ok b) pre -> f a = Raise e ->
  rmapM f ((pre ++ a :: post)%list) = Raise e.
Proof.
  induction 1 as [|x pre [b Hb] _ IH]; cbn [app rmapM]; intro Ha.
  - now rewrite Ha.
  - rewrite Hb. cbn [rbind]. now rewrite IH.
Qed.

Lemma slice_to_length {A} (l : list A) (limit : Z) :
  (0 <= limit)%Z ->
  List.length (slice_to l limit) = Nat.min (Z.to_nat limit) (List.length l).
Proof.
  intro H. unfold slice_to.
  replace (limit <? 0)%Z with false by (symmetry; apply Z.ltb_ge; lia).
  apply length_firstn.
Qed.

Lemma extract_article_ok (w : World) (url : string) :
  (exists p, pages w url = Ok p) <-> exists a, extract_article w url = Ok a.
Proof.
  unfold extract_article. destruct (pages w url); cbn [rbind]; split;
    intros [x H]; try discriminate H; eauto.
Qed.

(** X20.  [fetch_news] is all or nothing over the first [limit] URLs of
    the listing: when each of their pages loads it returns one article
    per URL, at most [limit] of them for a limit that is not negative;
    when one fails it raises the error of the first that fails and
    returns no article at all. *)
Theorem fetch_news_is_all_or_nothing
    (w : World) (limit : Z) (urls : list string) :
  get_news_urls w = Ok urls ->
  (Forall (fun u => exists p, pages w u = Ok p) (slice_to urls limit) ->
   exists articles,
     fetch_news w limit = Ok articles
     /\ List.length articles = List.length (slice_to urls limit)
     /\ ((0 <= limit)%Z ->
         List.length articles = Nat.min (Z.to_nat limit) (List.length urls)))
  /\ (forall pre u post e,
        slice_to urls limit = (pre ++ u :: post)%list ->
        Forall (fun u => exists p, pages w u = Ok p) pre ->
        pages w u = Raise e ->
        fetch_news w limit = Raise e).
Proof.
  intro G. unfold fetch_news. rewrite G. cbn [rbind]. split.
  - intro F.
    assert (F' : Forall (fun u => exists a, extract_article w u = Ok a)
                   (slice_to urls limit)).
    { eapply Forall_impl; [|exact F]. intros u. apply extract_article_ok. }
    destruct (rmapM_all_ok _ F') as [arts E]. exists arts.
    split; [exact E|]. pose proof (rmapM_length _ _ E) as L.
    split; [exact L|]. intro Hl. now rewrite L, slice_to_length.
  - intros pre u post e -> F He.
    apply rmapM_first_error.
    + eapply Forall_impl; [|exact F]. intros x. apply extract_article_ok.
    + unfold extract_article. now rewrite He.
Qed.

End News.

(* ================================================================== *)
(** ** The further properties at sample inputs *)
(* ================================================================== *)

Lemma blank_dates_mean_default_window_witness :
  snd (run (get_stock_data init
              (mk_request "AAPL" "US" (Some ""%string)
                 (Some "20250101"%string)))
         (sample_env (Ok [])))
  = [stock_us_hist "AAPL" "20240517" "20250101" "qfq"]
  /\ blank (Some ""%string)
  /\ call_start_date (stock_us_hist "AAPL" "20240517" "20250101" "qfq")
     = Some (year_ago_ymd (sample_env (Ok [])))
  /\ call_end_date (stock_us_hist "AAPL" "20240517" "20250101" "qfq")
     = Some "20250101"%string.
Proof.
  assert (T : snd (run (get_stock_data init
                          (mk_request "AAPL" "US" (Some ""%string)
                             (Some "20250101"%string)))
                     (sample_env (Ok [])))
              = [stock_us_hist "AAPL" "20240517" "20250101" "qfq"])
    by reflexivity.
  assert (B : blank (Some ""%string)) by (right; reflexivity).
  assert (N : market_type (mk_request "AAPL" "US" (Some ""%string)
                             (Some "20250101"%string)) <> "HK"%string)
    by discriminate.
  split; [exact T|]. split; [exact B|].
  destruct (proj2 (proj2 (@blank_dates_mean_default_window init
                            (sample_env (Ok [])) _) _ T) N)
    as (S1 & _ & _ & E2).
  split; [exact (S1 B)|].
  apply (E2 "20250101"%string eq_refl). discriminate.
Defined.

Lemma preprocess_leaves_no_missing_value_witness :
  preprocess [sample_bad_row 2; sample_row 1 10 100]
  = Ok [sample_bar 1 10 100]
  /\ forallb no_missing [sample_bar 1 10 100] = true
  /\ (List.length [sample_bar 1 10 100]
      <= List.length [sample_bad_row 2; sample_row 1 10 100])%nat.
Proof.
  assert (H : preprocess [sample_bad_row 2; sample_row 1 10 100]
              = Ok [sample_bar 1 10 100]) by reflexivity.
  split; [exact H|].
  split; [exact (proj1 (preprocess_leaves_no_missing_value _ H))
         |exact (proj1 (proj2 (preprocess_leaves_no_missing_value _ H)))].
Defined.

Lemma clean_sorted_frame_passes_through_witness :
  map clean_bar sample_rows3 = map Some sample_bars3
  /\ StronglySorted Z.lt (map date sample_bars3)
  /\ preprocess sample_rows3 = Ok sample_bars3.
Proof.
  assert (A : map clean_bar sample_rows3 = map Some sample_bars3)
    by reflexivity.
  assert (B : StronglySorted Z.lt (map date sample_bars3)).
  { cbn. repeat constructor; lia. }
  split; [exact A|]. split; [exact B|].
  exact (clean_sorted_frame_passes_through _ _ A B).
Defined.

Lemma indicator_columns_are_aligned_witness :
  exists r,
    nth_error (calculate_indicators init sample_bars3) 1 = Some r
    /\ nth_error sample_bars3 1 = Some (bar r)
    /\ MACD_hist r = (MACD r - Signal r)%num
    /\ Volume_Ratio r = (volume (bar r) / Volume_MA r)%num
    /\ Volatility r = (ATR r / close (bar r) * Fin (qz 100))%num.
Proof.
  destruct (nth_error (calculate_indicators init sample_bars3) 1)
    as [r|] eqn:E; [|vm_compute in E; discriminate E].
  exists r. split; [reflexivity|].
  exact (indicator_columns_are_aligned init sample_bars3 1 E).
Defined.

Lemma rolling_indicators_warm_up_witness :
  exists r,
    nth_error (calculate_indicators init sample_bars3) 1 = Some r
    /\ (Volume_MA r = NaN /\ Volume_Ratio r = NaN)
    /\ (ATR r = NaN /\ Volatility r = NaN)
    /\ RSI r = NaN /\ ROC r = NaN.
Proof.
  destruct (nth_error (calculate_indicators init sample_bars3) 1)
    as [r|] eqn:E; [|vm_compute in E; discriminate E].
  exists r. split; [reflexivity|].
  destruct (rolling_indicators_warm_up init sample_bars3 1 E)
    as (V & A & R & C).
  split; [apply V; simpl; lia|]. split; [apply A; simpl; lia|].
  split; [apply R; simpl; lia | apply C; lia].
Defined.

Lemma analysis_report_is_consistent_witness :
  run (get_stock_data init sample_request) (sample_env (Ok sample_rows3))
  = (Ok sample_bars3, [sample_call])
  /\ (2 <= List.length sample_bars3)%nat
  /\ exists report pre latest,
       run (analyze_stock init sample_request) (sample_env (Ok sample_rows3))
       = (Ok report, [sample_call])
       /\ calculate_indicators init sample_bars3 = pre ++ [latest]
       /\ score report = of_Z (rubric latest)
       /\ recommendation report = _get_recommendation (score report)
       /\ price report = close (bar latest)
       /\ rsi report = (if isna (RSI latest) then None else Some (RSI latest))
       /\ res_stock_code report = stock_code sample_request
       /\ res_market_type report = market_type sample_request
       /\ analysis_date report = now_iso (sample_env (Ok sample_rows3)).
Proof.
  assert (H : run (get_stock_data init sample_request)
                (sample_env (Ok sample_rows3))
              = (Ok sample_bars3, [sample_call])) by reflexivity.
  assert (L : (2 <= List.length sample_bars3)%nat) by (simpl; lia).
  split; [exact H|]. split; [exact L|].
  exact (analysis_report_is_consistent init _ sample_request H L).
Defined.

Lemma short_history_is_never_a_strong_buy_witness :
  run (get_stock_data init sample_request) (sample_env (Ok sample_rows3))
  = (Ok sample_bars3, [sample_call])
  /\ (2 <= List.length sample_bars3)%nat
  /\ (List.length sample_bars3 < volume_ma_period (params init))%nat
  /\ exists report,
       run (analyze_stock init sample_request) (sample_env (Ok sample_rows3))
       = (Ok report, [sample_call])
       /\ recommendation report <> strongly_buy
       /\ ((List.length sample_bars3 < rsi_period (params init))%nat ->
           In (recommendation report) [hold; sell; strongly_sell]).
Proof.
  assert (H : run (get_stock_data init sample_request)
                (sample_env (Ok sample_rows3))
              = (Ok sample_bars3, [sample_call])) by reflexivity.
  assert (L : (2 <= List.length sample_bars3)%nat) by (simpl; lia).
  assert (V : (List.length sample_bars3
               < volume_ma_period (params init))%nat) by (simpl; lia).
  split; [exact H|]. split; [exact L|]. split; [exact V|].
  exact (short_history_is_never_a_strong_buy init _ sample_request H L V).
Defined.

Lemma analyze_stock_propagates_fetch_errors_witness :
  snd (run (get_stock_data init sample_request)
         (sample_env (Raise (OtherError "ConnectionError" "unreachable"))))
  = [sample_call]
  /\ run (analyze_stock init sample_request)
       (sample_env (Raise (OtherError "ConnectionError" "unreachable")))
     = (Raise (OtherError "ConnectionError" "unreachable"), [sample_call]).
Proof.
  assert (T : snd (run (get_stock_data init sample_request)
                     (sample_env
                        (Raise (OtherError "ConnectionError" "unreachable"))))
              = [sample_call]) by reflexivity.
  split; [exact T|].
  exact (proj1 (analyze_stock_propagates_fetch_errors init _
                  sample_request T) _ eq_refl).
Defined.

Lemma recommendation_is_monotone_witness :
  fle (of_Z 35) (of_Z 65) = true
  /\ (label_rank (_get_recommendation (of_Z 35))
      <= label_rank (_get_recommendation (of_Z 65)))%nat.
Proof.
  assert (H : fle (of_Z 35) (of_Z 65) = true) by reflexivity.
  split; [exact H | exact (recommendation_is_monotone _ _ H)].
Defined.

Lemma atr_is_never_negative_witness :
  forallb finite_bar sample_bars3 = true
  /\ forallb (fun b => fle (low b) (high b)) sample_bars3 = true
  /\ (at_ (_calculate_atr sample_bars3 2) 2 = NaN
      \/ exists q,
           at_ (_calculate_atr sample_bars3 2) 2 = Fin q
           /\ (Q2Qc 0 <= q)%Qc).
Proof.
  assert (A : forallb finite_bar sample_bars3 = true) by reflexivity.
  assert (B : forallb (fun b => fle (low b) (high b)) sample_bars3 = true)
    by reflexivity.
  split; [exact A|]. split; [exact B|].
  exact (atr_is_never_negative sample_bars3 2 2 A B).
Defined.

Lemma rsi_formula_and_range_witness :
  (2 < List.length [qz 10; qz 12; qz 11])%nat
  /\ at_ (_calculate_rsi (map Fin [qz 10; qz 12; qz 11]) 2) 2
     = num_of_option (spec_rsi 2 [qz 10; qz 12; qz 11] 2)
  /\ (forall q, spec_rsi 2 [qz 10; qz 12; qz 11] 2 = Some q ->
        (Q2Qc 0 <= q)%Qc /\ (q <= qz 100)%Qc).
Proof.
  assert (A : (2 < List.length [qz 10; qz 12; qz 11])%nat) by (simpl; lia).
  split; [exact A|].
  exact (@rsi_formula_and_range 2 [qz 10; qz 12; qz 11] 2 A).
Defined.

Lemma steady_volume_is_normal_witness :
  run (get_stock_data init sample_request) (sample_env (Ok sample_rows3))
  = (Ok sample_bars3, [sample_call])
  /\ (2 <= List.length sample_bars3)%nat
  /\ Forall (fun b => volume b = Fin (qz 100)) sample_bars3
  /\ exists report latest pre,
       run (analyze_stock init sample_request) (sample_env (Ok sample_rows3))
       = (Ok report, [sample_call])
       /\ calculate_indicators init sample_bars3 = pre ++ [latest]
       /\ volume_status report = "NORMAL"%string
       /\ volume_points (Volume_Ratio latest) = 0%Z.
Proof.
  assert (H : run (get_stock_data init sample_request)
                (sample_env (Ok sample_rows3))
              = (Ok sample_bars3, [sample_call])) by reflexivity.
  assert (L : (2 <= List.length sample_bars3)%nat) by (simpl; lia).
  assert (V : Forall (fun b => volume b = Fin (qz 100)) sample_bars3)
    by (repeat constructor).
  split; [exact H|]. split; [exact L|]. split; [exact V|].
  exact (proj2 (@steady_volume_is_normal init _ sample_request _ _ _
                  H L V)).
Defined.

Lemma rate_of_change_formula_witness :
  exists r,
    nth_error (calculate_indicators init (flat_frame 12 7)) 11 = Some r
    /\ nth_error (flat_frame 12 7) (11 - 10) = Some (sample_bar 1 10 7)
    /\ (10 <= 11)%nat
    /\ close (bar r) = Fin (qz 10)
    /\ close (sample_bar 1 10 7) = Fin (qz 10)
    /\ qz 10 <> Q2Qc 0
    /\ ROC r = Fin ((qz 10 - qz 10) / qz 10 * qz 100)%Qc.
Proof.
  destruct (nth_error (calculate_indicators init (flat_frame 12 7)) 11)
    as [r|] eqn:E; [|vm_compute in E; discriminate E].
  assert (B : nth_error (flat_frame 12 7) (11 - 10)
              = Some (sample_bar 1 10 7)) by reflexivity.
  assert (I : (10 <= 11)%nat) by lia.
  assert (C : close (bar r) = Fin (qz 10)).
  { pose proof E as E'. vm_compute in E'. injection E' as <-. reflexivity. }
  assert (C0 : close (sample_bar 1 10 7) = Fin (qz 10)) by reflexivity.
  assert (N : qz 10 <> Q2Qc 0) by discriminate.
  exists r. split; [reflexivity|]. split; [exact B|]. split; [exact I|].
  split; [exact C|]. split; [exact C0|]. split; [exact N|].
  exact (proj1 (@rate_of_change_formula init (flat_frame 12 7) 11%nat r
                  (sample_bar 1 10 7) (qz 10) (qz 10) E B I C C0) N).
Defined.

Lemma fetch_news_is_all_or_nothing_witness :
  NewsCrawler.get_news_urls sample_world
  = Ok ["https://www.aibase.com/zh/news/1";
        "https://www.aibase.com/zh/zh/news/2"]%string
  /\ NewsCrawler.fetch_news sample_world 2
     = Raise (OtherError "HTTPError" "404 Client Error")
  /\ exists articles,
       NewsCrawler.fetch_news sample_world 1 = Ok articles
       /\ List.length articles = 1%nat.
Proof.
  assert (G : NewsCrawler.get_news_urls sample_world
              = Ok ["https://www.aibase.com/zh/news/1";
                    "https://www.aibase.com/zh/zh/news/2"]%string)
    by reflexivity.
  assert (S2 : NewsCrawler.slice_to
                 ["https://www.aibase.com/zh/news/1";
                  "https://www.aibase.com/zh/zh/news/2"]%string 2
               = ["https://www.aibase.com/zh/news/1"]%string
                 ++ "https://www.aibase.com/zh/zh/news/2"%string :: [])
    by reflexivity.
  assert (F : Forall (fun u => exists p,
                        NewsCrawler.pages sample_world u = Ok p)
                ["https://www.aibase.com/zh/news/1"]%string).
  { repeat constructor. eexists. reflexivity. }
  split; [exact G|]. split.
  - exact (proj2 (@fetch_news_is_all_or_nothing sample_world 2 _ G)
             _ _ _ _ S2 F eq_refl).
  - destruct (proj1 (@fetch_news_is_all_or_nothing sample_world 1 _ G) F)
      as (articles & E & L & _).
    exists articles. split; [exact E | exact L].
Defined.
